(** * Inference scripts of the task-complexity and recommender models

    Shallow embedding of
    - [ml/complexity_detection/scripts/predict.py] ([softmax], [load_model],
      [predict]), whose [softmax] is also the one of
      [ml/complexity_detection/scripts/eval.py];
    - [ml/recommender/scripts/predict.py] ([extract_model_features],
      [predict]).

    Conventions of the embedding.
    - Python [str] values are modelled by [string]; the text is taken to be
      ASCII, so that [str.lower] only moves [A-Z] and the regular expression
      class [\w] is [[A-Za-z0-9_]].
    - numpy [float64] values are modelled by the real numbers [R]: rounding,
      overflow, underflow and NaN are outside the model.
    - JSON objects used as dictionaries are [gmap]s keyed by [string].
    - Python exceptions are the [Err] results of the [Res] type. *)

From Stdlib Require Import Reals Lra Lia ZArith List Ascii String.
From stdpp Require Import base option list gmap strings.

#[local] Open Scope string_scope.

(** ** Text helpers *)

Module Text.

(** [c] is one of [A-Z]. *)
Definition is_upper (c : ascii) : bool :=
  let n := nat_of_ascii c in (65 <=? n)%nat && (n <=? 90)%nat.

Definition lower_char (c : ascii) : ascii :=
  if is_upper c then ascii_of_nat (nat_of_ascii c + 32) else c.

(** [str.lower] on ASCII text. *)
Fixpoint lower (s : string) : string :=
  match s with
  | EmptyString => EmptyString
  | String c s' => String (lower_char c) (lower s')
  end.

(** The class [\w] on ASCII text: letters, digits and the underscore. *)
Definition is_word_char (c : ascii) : bool :=
  let n := nat_of_ascii c in
  ((48 <=? n)%nat && (n <=? 57)%nat)
  || ((65 <=? n)%nat && (n <=? 90)%nat)
  || ((97 <=? n)%nat && (n <=? 122)%nat)
  || (n =? 95)%nat.

(** [t in s] on Python strings: [t] occurs in [s] as a contiguous
    substring. *)
Fixpoint contains (s t : string) : bool :=
  String.prefix t s
  || match s with
     | EmptyString => false
     | String _ s' => contains s' t
     end.

(** [s.replace(c, '')] for a one-character [c], as in [size.replace('b', '')]:
    every occurrence of the character is deleted. *)
Fixpoint remove_char (c : ascii) (s : string) : string :=
  match s with
  | EmptyString => EmptyString
  | String d s' =>
      if Ascii.eqb c d then remove_char c s' else String d (remove_char c s')
  end.

(** [int(s)] on a string of decimal digits; anything else raises
    [ValueError], rendered as [None]. *)
Definition digit_value (c : ascii) : option Z :=
  let n := nat_of_ascii c in
  if ((48 <=? n)%nat && (n <=? 57)%nat)%bool then Some (Z.of_nat (n - 48)) else None.

Fixpoint int_of_digits (acc : Z) (s : string) : option Z :=
  match s with
  | EmptyString => Some acc
  | String c s' =>
      match digit_value c with
      | Some d => int_of_digits (10 * acc + d)%Z s'
      | None => None
      end
  end.

Definition parse_int (s : string) : option Z :=
  match s with
  | EmptyString => None
  | _ => int_of_digits 0 s
  end.

End Text.

(** ** Tokenizer of the vectorizer

    [TfidfVectorizer(vocabulary=...)] is built with its default analyzer:
    the document is lowercased, the tokens are the matches of
    [(?u)\b\w\w+\b] (maximal runs of at least two word characters), and
    [ngram_range] is [(1, 1)], so the tokens are the unigrams. *)

Module Tokenizer.

(** Close the current run [run] (kept in reverse): a run of fewer than two
    word characters is no token. *)
Definition flush (run : list ascii) : list string :=
  if (2 <=? List.length run)%nat then [string_of_list_ascii (rev run)] else [].

Fixpoint word_runs (run : list ascii) (s : string) : list string :=
  match s with
  | EmptyString => flush run
  | String c s' =>
      if Text.is_word_char c then word_runs (c :: run) s'
      else flush run ++ word_runs [] s'
  end.

Definition tokenize (doc : string) : list string :=
  word_runs [] (Text.lower doc).

End Tokenizer.

(** ** Results of Python calls *)

Inductive PyError : Type :=
  | ValueError   (* numpy shape errors, sklearn validation errors *)
  | IndexError   (* index out of range *)
  | JSONDecodeError
  | SystemExit (code : Z).

Inductive Res (A : Type) : Type :=
  | Ok (a : A)
  | Err (e : PyError).

Arguments Ok {A} a.
Arguments Err {A} e.

Definition res_bind {A B : Type} (r : Res A) (k : A -> Res B) : Res B :=
  match r with
  | Ok a => k a
  | Err e => Err e
  end.

Definition is_ok {A : Type} (r : Res A) : Prop :=
  match r with Ok _ => True | Err _ => False end.

(** ** numpy on one-dimensional [float64] arrays *)

Module Np.

#[local] Open Scope R_scope.

(** [a.sum()]. *)
Definition sum (a : list R) : R := fold_right Rplus 0 a.

(** Inner product of two arrays of the same length. *)
Definition inner (a b : list R) : R := sum (zip_with Rmult a b).

(** [np.dot(m, x)] for a matrix given by its rows and a vector [x]: every
    row must be as long as [x], and there is at least one row (an empty
    list of rows is a one-dimensional array of length 0, which does not
    align with a non-empty [x]). *)
Definition dot (m : list (list R)) (x : list R) : Res (list R) :=
  match m with
  | [] => Err ValueError
  | _ =>
      if forallb (fun row => (List.length row =? List.length x)%nat) m
      then Ok (map (fun row => inner row x) m)
      else Err ValueError
  end.

(** [a + b] with numpy's broadcasting of one-dimensional arrays: equal
    lengths add pointwise, an array of length 1 is stretched, anything else
    is a [ValueError]. *)
Definition add (a b : list R) : Res (list R) :=
  if (List.length a =? List.length b)%nat then Ok (zip_with Rplus a b)
  else match a, b with
       | [x], _ => Ok (map (fun y => x + y) b)
       | _, [y] => Ok (map (fun x => x + y) a)
       | _, _ => Err ValueError
       end.

(** [a[i] += v] for a non-negative index [i]. *)
Definition add_at (i : nat) (v : R) (a : list R) : Res (list R) :=
  match a !! i with
  | Some x => Ok (<[i := x + v]> a)
  | None => Err IndexError
  end.

(** [np.max(a)]: an empty array has no maximum. *)
Definition max (a : list R) : Res R :=
  match a with
  | [] => Err ValueError
  | x :: a' => Ok (fold_left Rmax a' x)
  end.

(** [np.argmax(a)]: the first index holding the maximum. *)
Fixpoint argmax_from (best_i : nat) (best : R) (i : nat) (a : list R) : nat :=
  match a with
  | [] => best_i
  | x :: a' =>
      if Rlt_dec best x then argmax_from i x (S i) a'
      else argmax_from best_i best (S i) a'
  end.

Definition argmax (a : list R) : Res nat :=
  match a with
  | [] => Err ValueError
  | x :: a' => Ok (argmax_from 0 x 1 a')
  end.


End Np.

(** ** The model artifact ([complexity_model.json]) *)

Record Tfidf : Type := {
  vocabulary : gmap string Z;
  idf_weights : list R
}.

Record Classifier : Type := {
  coefficients : list (list R);
  intercepts : list R;
  classes : list string
}.

(** The [metadata] object is only printed by the interactive mode and is
    left out. *)
Record Model : Type := {
  tfidf : Tfidf;
  classifier : Classifier
}.

(** ** [sklearn.feature_extraction.text.TfidfVectorizer]

    The part of the library that [predict] runs: a vectorizer built on a
    fixed vocabulary, whose [idf_] is assigned, and [transform] on one
    document with the default [norm='l2'], [use_idf=True],
    [sublinear_tf=False]. *)

Module Vectorizer.

#[local] Open Scope R_scope.

(** [_validate_vocabulary] on a mapping: the indices are pairwise distinct,
    every index of [range(len(vocabulary))] is used, and the vocabulary is not
    empty. *)
Definition indices (voc : gmap string Z) : list Z := (map_to_list voc).*2.

Definition validate_vocabulary (voc : gmap string Z) : Res unit :=
  if negb (bool_decide (NoDup (indices voc))) then Err ValueError
  else if negb (forallb (fun i => bool_decide (Z.of_nat i ∈ indices voc))
                        (seq 0 (size voc)))
  then Err ValueError
  else if (size voc =? 0)%nat then Err ValueError
  else Ok tt.

(** The setter of [idf_]: validates the vocabulary, then checks that there
    is one weight per vocabulary entry. *)
Definition set_idf (voc : gmap string Z) (idf : list R) : Res unit :=
  res_bind (validate_vocabulary voc) (fun _ =>
  if (size voc =? List.length idf)%nat then Ok tt else Err ValueError).

(** Term counts: each token found in the vocabulary adds one at its index;
    the others are dropped. [term_count voc toks j] is the count stored in
    column [j]. *)
Definition term_count (voc : gmap string Z) (toks : list string) (j : nat) : nat :=
  List.length (filter (fun t => voc !! t = Some (Z.of_nat j)) toks).

Definition counts (voc : gmap string Z) (toks : list string) : list nat :=
  map (term_count voc toks) (seq 0 (size voc)).

(** tf-idf before normalization: the count times the idf weight of the
    column. *)
Definition raw_tfidf (voc : gmap string Z) (idf : list R) (toks : list string)
  : list R :=
  zip_with (fun c w => INR c * w) (counts voc toks) idf.

(** Row normalization with [norm='l2']: a row whose sum of squares is zero
    is skipped, the others are divided by the square root of that sum. *)
Definition l2_normalize (row : list R) : list R :=
  let s := Np.sum (map (fun x => x * x) row) in
  if Req_dec_T s 0 then row else map (fun x => x / sqrt s) row.

(** [vectorizer.idf_ = idf; vectorizer.transform([doc]).toarray()[0]]. *)
Definition transform (voc : gmap string Z) (idf : list R) (doc : string)
  : Res (list R) :=
  res_bind (set_idf voc idf) (fun _ =>
  Ok (l2_normalize (raw_tfidf voc idf (Tokenizer.tokenize doc)))).

End Vectorizer.

(** ** Calls that hold a reference to the loaded artifact

    [predict] receives the parsed JSON object by reference. A call is a
    function from the state of that object to a result and the state the
    object is left in: [read] is a subscript such as [model['tfidf']], and
    the arrays made by [np.array], [np.dot] and [+] are fresh values owned by
    the call. *)

Definition Py (S A : Type) : Type := S -> Res A * S.

Definition ret {S A : Type} (a : A) : Py S A := fun s => (Ok a, s).

Definition bind {S A B : Type} (c : Py S A) (k : A -> Py S B) : Py S B :=
  fun s =>
    match c s with
    | (Ok a, s') => k a s'
    | (Err e, s') => (Err e, s')
    end.

Definition read {S A : Type} (f : S -> A) : Py S A := fun s => (Ok (f s), s).

Definition lift {S A : Type} (r : Res A) : Py S A := fun s => (r, s).

#[export] Instance py_ret {S : Type} : MRet (Py S) := @ret S.
#[export] Instance py_bind {S : Type} : MBind (Py S) :=
  fun A B k c => bind c k.

(** [l[i]] on a Python list, for a non-negative [i]. *)
Definition subscript {A : Type} (l : list A) (i : nat) : Res A :=
  match l !! i with
  | Some x => Ok x
  | None => Err IndexError
  end.

(** ** [ml/complexity_detection/scripts/predict.py] *)

Module Complexity.

#[local] Open Scope R_scope.

(** The model file as [load_model] finds it: absent, present with a content
    that [json.load] refuses, or present with a JSON object. *)
Inductive ModelFile : Type :=
  | Missing
  | Unparsable
  | Parsed (m : Model).

Definition load_model (f : ModelFile) : Res Model :=
  match f with
  | Missing => Err (SystemExit 1)
  | Unparsable => Err JSONDecodeError
  | Parsed m => Ok m
  end.

Definition softmax (x : list R) : Res (list R) :=
  res_bind (Np.max x) (fun m =>
  let exp_x := map (fun v => exp (v - m)) x in
  Ok (map (fun e => e / Np.sum exp_x) exp_x)).

Definition multistep_cues : list string :=
  [" then "; " and then "; ", then "; "; then "; " after "; " followed by ";
   " first "; " second "; " third "].

Definition complex_cues : list string :=
  ["oauth"; "oauth2"; "oidc"; "migrate"; "migration"; "deploy"; "docker";
   "kubectl"; "k8s"; "s3"; "pipeline"; "airflow"; "terraform"; "ansible";
   "kafka"; "stripe"; "payment"; "upload"; "script"; "bash"; "nginx"; "logs"].

(** [f" {message.lower()} "]. *)
Definition padded (message : string) : string :=
  " " ++ Text.lower message ++ " ".

(** [any(c in text for c in cues)]. *)
Definition any_cue (cues : list string) (text : string) : bool :=
  existsb (Text.contains text) cues.

(** [classes.index(name) if name in classes else fallback]. *)
Definition class_index (name : string) (fallback : nat) (classes : list string)
  : nat :=
  match list_find (fun c => c = name) classes with
  | Some (i, _) => i
  | None => fallback
  end.

Definition idx_simple (classes : list string) : nat := class_index "simple" 0 classes.
Definition idx_complex (classes : list string) : nat := class_index "complex" 1 classes.
Definition idx_multistep (classes : list string) : nat := class_index "multistep" 2 classes.

(** Lines 47-56: the two conditional in-place additions on [scores]. *)
Definition overlay (classes : list string) (message : string) (scores : list R)
  : Res (list R) :=
  let text := padded message in
  res_bind (if any_cue multistep_cues text
            then Np.add_at (idx_multistep classes) 1 scores
            else Ok scores) (fun scores =>
  if any_cue complex_cues text
  then Np.add_at (idx_complex classes) 1.5 scores
  else Ok scores).

Record Prediction : Type := {
  label : string;
  confidence : R;
  probabilities : gmap string R
}.

(** [{classes[i]: float(probs[i]) for i in range(len(classes))}]: the keys are
    inserted in order, a later duplicate key overwrites, and a [probs] shorter
    than [classes] is an [IndexError]. *)
Fixpoint probabilities_dict (acc : gmap string R) (classes : list string)
  (probs : list R) : Res (gmap string R) :=
  match classes with
  | [] => Ok acc
  | c :: classes' =>
      match probs with
      | [] => Err IndexError
      | p :: probs' => probabilities_dict (<[c := p]> acc) classes' probs'
      end
  end.

(** Lines 39-42: the feature vector [X_array]. *)
Definition features (message : string) : Py Model (list R) :=
  voc ← read (fun model => vocabulary (tfidf model));
  idf ← read (fun model => idf_weights (tfidf model));
  lift (Vectorizer.transform voc idf message).

(** Lines 39-46: the raw logits [scores]. *)
Definition raw_scores (message : string) : Py Model (list R) :=
  X_array ← features message;
  coefs ← read (fun model => coefficients (classifier model));
  intercepts ← read (fun model => intercepts (classifier model));
  lift (res_bind (Np.dot coefs X_array) (fun d => Np.add d intercepts)).

(** Lines 39-56: the logits after the cue bonuses. *)
Definition adjusted_scores (message : string) : Py Model (list R) :=
  scores ← raw_scores message;
  classes ← read (fun model => classes (classifier model));
  lift (overlay classes message scores).

(** Lines 57-63: softmax, arg-max and the returned dictionary. *)
Definition decision (classes : list string) (scores : list R) : Res Prediction :=
  res_bind (softmax scores) (fun probs =>
  res_bind (Np.argmax probs) (fun pred_idx =>
  res_bind (subscript classes pred_idx) (fun lbl =>
  res_bind (subscript probs pred_idx) (fun conf =>
  res_bind (probabilities_dict ∅ classes probs) (fun dist =>
  Ok {| label := lbl; confidence := conf; probabilities := dist |}))))).

(** Lines 38-63. *)
Definition predict (message : string) : Py Model Prediction :=
  scores ← adjusted_scores message;
  classes ← read (fun model => classes (classifier model));
  lift (decision classes scores).

(** The entry point [classify(text)] on a loaded artifact: the result of the
    call. *)
Definition classify (model : Model) (message : string) : Res Prediction :=
  fst (predict message model).

End Complexity.

(** ** [ml/complexity_detection/scripts/eval.py] *)

Module Eval.

#[local] Open Scope R_scope.

(** Lines 16-18. *)
Definition softmax (x : list R) : Res (list R) :=
  res_bind (Np.max x) (fun m =>
  let e := map (fun v => exp (v - m)) x in
  Ok (map (fun v => v / Np.sum e) e)).

End Eval.

(** ** [ml/recommender/scripts/predict.py] *)

Module Recommender.

#[local] Open Scope R_scope.

Record Encoders : Type := {
  action : gmap string Z;
  language : gmap string Z;
  complexity : gmap string Z
}.

(** [model.json] of the recommender; its [features] list of names is not
    read by [predict]. *)
Record ModelData : Type := {
  encoders : Encoders;
  coefficients : list (list R);
  intercept : list R
}.

Definition sizes : list string :=
  ["405b"; "120b"; "70b"; "32b"; "33b"; "22b"; "9b"; "8b"; "3b"].

Definition flag (b : bool) : Z := if b then 1%Z else 0%Z.

(** [extract_model_features]: the loop stops at the first size found in the
    lowercased identifier. *)
Definition extract_model_features (model_id : string) : Res (Z * Z * Z) :=
  let model_lower := Text.lower model_id in
  let has_coder :=
    flag (Text.contains model_lower "coder" || Text.contains model_lower "code") in
  let has_instant :=
    flag (Text.contains model_lower "instant" || Text.contains model_lower "flash") in
  match find (Text.contains model_lower) sizes with
  | None => Ok (has_coder, has_instant, 0%Z)
  | Some size =>
      match Text.parse_int (Text.remove_char "b"%char size) with
      | Some n => Ok (has_coder, has_instant, n)
      | None => Err ValueError
      end
  end.

(** [enc[value]] when [value in enc], the default 0 (with a printed
    warning) otherwise. *)
Definition encode (enc : gmap string Z) (value : string) : Z :=
  match enc !! value with
  | Some i => i
  | None => 0%Z
  end.

(** [np.log1p], on its domain [x > -1]. *)
Definition log1p (x : R) : R := ln (1 + x).

(** [np.dot(a, b)] of two one-dimensional arrays. *)
Definition dot1 (a b : list R) : Res R :=
  if (List.length a =? List.length b)%nat then Ok (Np.inner a b) else Err ValueError.

(** [1 / (1 + np.exp(-logit))]. *)
Definition sigmoid (logit : R) : R := 1 / (1 + exp (- logit)).

Definition predict (model_id action_v language_v complexity_v : string)
  (context_window : Z) (cost_per_1m : R) : Py ModelData R :=
  enc ← read encoders;
  let action_encoded := encode (action enc) action_v in
  let language_encoded := encode (language enc) language_v in
  let complexity_encoded := encode (complexity enc) complexity_v in
  '(has_coder, has_instant, model_size) ← lift (extract_model_features model_id);
  let log_cost := log1p cost_per_1m in
  let log_context := log1p (IZR context_window) in
  let features :=
    [IZR action_encoded; IZR language_encoded; IZR complexity_encoded;
     log_cost; log_context; IZR has_coder; IZR has_instant; IZR model_size] in
  rows ← read coefficients;
  coef ← lift (subscript rows 0);
  intercepts ← read intercept;
  intercept ← lift (subscript intercepts 0);
  dot ← lift (dot1 features coef);
  let logit := dot + intercept in
  let prob := sigmoid logit in
  mret prob.

(** [classify_features] on a loaded artifact: the result of the call. *)
Definition classify_features (model_data : ModelData)
  (model_id action_v language_v complexity_v : string)
  (context_window : Z) (cost_per_1m : R) : Res R :=
  fst (predict model_id action_v language_v complexity_v context_window
         cost_per_1m model_data).

End Recommender.

(** ** Invariants of the artifact and fixtures *)

(** The result of a call started in state [s]. *)
Definition run {S A : Type} (c : Py S A) (s : S) : Res A := fst (c s).

(** The invariants of a model artifact: the vectorizer accepts the vocabulary
    and the idf table (indices [0 .. size - 1], one weight per index), the
    coefficient matrix has one row per class and one column per vocabulary
    index, there is one intercept per class, and there is at least one
    class. *)
Record well_formed (m : Model) : Prop := {
  wf_vectorizer :
    Vectorizer.set_idf (vocabulary (tfidf m)) (idf_weights (tfidf m)) = Ok tt;
  wf_columns :
    Forall (fun row => List.length row = size (vocabulary (tfidf m)))
           (coefficients (classifier m));
  wf_rows :
    List.length (coefficients (classifier m)) = List.length (classes (classifier m));
  wf_intercepts :
    List.length (intercepts (classifier m)) = List.length (classes (classifier m));
  wf_classes : classes (classifier m) <> []
}.

(** The two positions the cue bonuses are added at lie inside the class
    list. *)
Definition overlay_in_range (classes : list string) : Prop :=
  (Complexity.idx_complex classes < List.length classes)%nat
  /\ (Complexity.idx_multistep classes < List.length classes)%nat.

(** The number of cues of [cues] that occur in [text]. *)
Definition matching_cues (cues : list string) (text : string) : nat :=
  List.length (List.filter (Text.contains text) cues).

(** The bonus a position receives: 1.0 when it is the multistep position and
    some multistep cue matches, plus 1.5 when it is the complex position and
    some complex cue matches. *)
Definition bonus (classes : list string) (doc : string) (i : nat) : R :=
  ((if bool_decide (i = Complexity.idx_multistep classes)
       && Complexity.any_cue Complexity.multistep_cues (Complexity.padded doc)
    then 1 else 0)
   + (if bool_decide (i = Complexity.idx_complex classes)
         && Complexity.any_cue Complexity.complex_cues (Complexity.padded doc)
      then 1.5 else 0))%R.

Module Fixtures.

#[local] Open Scope R_scope.

Definition three_classes : list string := ["simple"; "complex"; "multistep"].

(** The fixture of the specification's testable properties. *)
Definition deploy_docker : Model := {|
  tfidf := {| vocabulary := <["deploy" := 0%Z]> (<["docker" := 1%Z]> ∅);
              idf_weights := [1; 1] |};
  classifier := {| coefficients := [[0; 0]; [1; 1]; [0; 0]];
                   intercepts := [0; 0; 0];
                   classes := three_classes |}
|}.

(** What [predict] returns on the fixture for the text "deploy docker": the
    adjusted logit of "complex", the exponentials of the shifted logits and
    the returned dictionary. *)
Definition complex_logit : R := sqrt 2 + 1.5.

Definition weights : list R :=
  [exp (0 - complex_logit); exp (complex_logit - complex_logit);
   exp (0 - complex_logit)].

Definition probability (i : nat) : R := nth i weights 0 / Np.sum weights.

Definition deploy_docker_result : Complexity.Prediction := {|
  Complexity.label := "complex";
  Complexity.confidence := probability 1;
  Complexity.probabilities :=
    <["multistep" := probability 2]>
      (<["complex" := probability 1]> (<["simple" := probability 0]> ∅))
|}.


(** Three coefficient rows and intercepts for two classes. *)
Definition three_rows_two_classes : Model := {|
  tfidf := {| vocabulary := <["deploy" := 0%Z]> ∅; idf_weights := [1] |};
  classifier := {| coefficients := [[0]; [0]; [0]];
                   intercepts := [0; 0; 0];
                   classes := ["simple"; "complex"] |}
|}.

(** A two-class artifact that satisfies every invariant. *)
Definition two_classes : Model := {|
  tfidf := {| vocabulary := <["deploy" := 0%Z]> ∅; idf_weights := [1] |};
  classifier := {| coefficients := [[0]; [0]];
                   intercepts := [0; 0];
                   classes := ["simple"; "complex"] |}
|}.

(** A recommender artifact with the eight trained features. *)
Definition recommender : Recommender.ModelData := {|
  Recommender.encoders := {|
    Recommender.action := <["edit" := 0%Z]> (<["review" := 1%Z]> ∅);
    Recommender.language := <["go" := 0%Z]> (<["python" := 1%Z]> ∅);
    Recommender.complexity := <["complex" := 0%Z]> (<["simple" := 1%Z]> ∅) |};
  Recommender.coefficients := [[1; 1; 1; 1; 1; 1; 1; 1]];
  Recommender.intercept := [0]
|}.

End Fixtures.

(** ** Python built-ins of the command-line entry points *)

Module Builtins.

(** [str.isspace] on ASCII characters: tab to carriage return, the four
    separators [\x1c] to [\x1f], and the space. *)
Definition is_space (c : ascii) : bool :=
  let n := nat_of_ascii c in
  ((9 <=? n)%nat && (n <=? 13)%nat) || ((28 <=? n)%nat && (n <=? 32)%nat).

Fixpoint lstrip (s : string) : string :=
  match s with
  | EmptyString => EmptyString
  | String c s' => if is_space c then lstrip s' else s
  end.

Fixpoint rstrip (s : string) : string :=
  match s with
  | EmptyString => EmptyString
  | String c s' =>
      match rstrip s' with
      | EmptyString => if is_space c then EmptyString else String c EmptyString
      | r => String c r
      end
  end.

(** [s.strip()] on ASCII text. *)
Definition strip (s : string) : string := rstrip (lstrip s).

(** [sep.join(items)]. *)
Definition join (sep : string) (items : list string) : string :=
  String.concat sep items.

(** [mapM] for results: the first error stops the traversal. *)
Fixpoint for_each {A B : Type} (f : A -> Res B) (l : list A) : Res (list B) :=
  match l with
  | [] => Ok []
  | x :: l' =>
      res_bind (f x) (fun y => res_bind (for_each f l') (fun ys => Ok (y :: ys)))
  end.

End Builtins.

(** ** [ml/complexity_detection/scripts/predict.py]: the entry points *)

Module ComplexityCli.

(** What [input()] meets at the terminal: a line, or Ctrl-C. An exhausted
    list is the end of the input, where [input()] raises [EOFError]. *)
Inductive Input : Type :=
  | Line (s : string)
  | Interrupt.

(** What an iteration of the loop prints: the block of a prediction, the
    error line of a caught exception, the error line of [EOFError], or the
    goodbye line. *)
Inductive Event : Type :=
  | Shown (r : Complexity.Prediction)
  | Failed (e : PyError)
  | EndOfFile
  | Goodbye.

(** The loop has left through [break], or is still iterating when the fuel
    is spent. *)
Inductive Session : Type :=
  | Ended (out : list Event)
  | Running (out : list Event).

Definition emit (e : Event) (s : Session) : Session :=
  match s with
  | Ended out => Ended (e :: out)
  | Running out => Running (e :: out)
  end.

Definition quit_words : list string := ["quit"; "exit"; "q"].

(** Lines 74-99, one unit of fuel per iteration of [while True]. The
    artifact is taken with its [metadata], whose two fields the header
    prints. *)
Fixpoint interactive_mode (fuel : nat) (model : Model) (stdin : list Input)
  : Session :=
  match fuel with
  | O => Running []
  | S fuel' =>
      match stdin with
      | [] => emit EndOfFile (interactive_mode fuel' model [])
      | Interrupt :: _ => Ended [Goodbye]
      | Line s :: stdin' =>
          let message := Builtins.strip s in
          if bool_decide (message = EmptyString)
          then interactive_mode fuel' model stdin'
          else if bool_decide (Text.lower message ∈ quit_words)
          then Ended [Goodbye]
          else
            match Complexity.predict message model with
            | (Ok result, model') =>
                emit (Shown result) (interactive_mode fuel' model' stdin')
            | (Err e, model') =>
                emit (Failed e) (interactive_mode fuel' model' stdin')
            end
      end
  end.

Inductive Outcome : Type :=
  | Single (result : Complexity.Prediction)
  | Interactive (s : Session).

(** Lines 101-118. *)
Definition main (fuel : nat) (file : Complexity.ModelFile)
  (argv : list string) (stdin : list Input) : Res Outcome :=
  res_bind (Complexity.load_model file) (fun model =>
  if (1 <? List.length argv)%nat
  then
    let message := Builtins.join " " (tail argv) in
    res_bind (fst (Complexity.predict message model)) (fun result =>
    Ok (Single result))
  else Ok (Interactive (interactive_mode fuel model stdin))).

End ComplexityCli.

(** ** [ml/complexity_detection/scripts/eval.py]: batch prediction *)

Module EvalBatch.

#[local] Open Scope R_scope.

(** [vec.transform(texts).toarray()]: one normalized row per text; an empty
    batch is refused. *)
Definition transform (voc : gmap string Z) (idf : list R) (texts : list string)
  : Res (list (list R)) :=
  res_bind (Vectorizer.set_idf voc idf) (fun _ =>
  match texts with
  | [] => Err ValueError
  | _ =>
      Ok (map (fun doc =>
                 Vectorizer.l2_normalize
                   (Vectorizer.raw_tfidf voc idf (Tokenizer.tokenize doc)))
              texts)
  end).

(** [X.dot(coefs.T) + intercepts]: row [d] of the product holds the inner
    products of [X[d]] with the coefficient rows, and the intercepts are
    broadcast along the rows. *)
Definition logits_of (coefs : list (list R)) (intercepts : list R)
  (X : list (list R)) : Res (list (list R)) :=
  Builtins.for_each
    (fun x => res_bind (Np.dot coefs x) (fun d => Np.add d intercepts)) X.

(** Lines 33-44. *)
Definition predict_batch (texts : list string) : Py Model (list string) :=
  voc ← read (fun model => vocabulary (tfidf model));
  idf ← read (fun model => idf_weights (tfidf model));
  X ← lift (transform voc idf texts);
  coefs ← read (fun model => coefficients (classifier model));
  intercepts ← read (fun model => intercepts (classifier model));
  classes ← read (fun model => classes (classifier model));
  logits ← lift (logits_of coefs intercepts X);
  probs ← lift (Builtins.for_each Eval.softmax logits);
  idx ← lift (Builtins.for_each Np.argmax probs);
  lift (Builtins.for_each (subscript classes) idx).

(** Line 52, and [LABELS] of [train.py], from which the classes of an
    exported artifact are drawn. *)
Definition label_map : gmap string Z :=
  <["simple" := 0%Z]> (<["complex" := 1%Z]> (<["multistep" := 2%Z]> ∅)).

Definition LABELS : gmap Z string :=
  <[0%Z := "simple"]> (<[1%Z := "complex"]> (<[2%Z := "multistep"]> ∅)).

(** Line 54: [[label_map[x] for x in y_pred_text]]; [None] is the
    [KeyError] of a label missing from [label_map]. *)
Definition encode_predictions (y_pred_text : list string) : option (list Z) :=
  mapM (fun x => label_map !! x) y_pred_text.

End EvalBatch.

(** ** [ml/recommender/scripts/predict.py]: the entry point *)

Module RecommenderCli.

#[local] Open Scope R_scope.

Inductive ModelFile : Type :=
  | Missing
  | Unparsable
  | Parsed (model_data : Recommender.ModelData).

(** How [main] leaves: it returns, raises one of the exceptions of
    [PyError], or raises the [EOFError] of an [input()] at the end of the
    input. *)
Inductive Exit (A : Type) : Type :=
  | Returned (a : A)
  | Raised (e : PyError)
  | RaisedEOF.

Arguments Returned {A} a.
Arguments Raised {A} e.
Arguments RaisedEOF {A}.

(** The last line printed (line 103). *)
Definition recommendation (prob : R) : string :=
  if Rlt_dec 0.7 prob then "✓ Good choice"
  else if Rlt_dec 0.5 prob then "⚠ Consider alternatives"
  else "✗ Not recommended".

Section Main.

(** Python's [int] and [float] on a string; [None] is their [ValueError]. *)
Variable int_of_string : string -> option Z.
Variable float_of_string : string -> option R.

Definition predict_and_report (model_data : Recommender.ModelData)
  (model_id action_v language_v complexity_v : string)
  (context_window : Z) (cost_per_1m : R) : Exit (R * string) :=
  match fst (Recommender.predict model_id action_v language_v complexity_v
               context_window cost_per_1m model_data) with
  | Ok prob => Returned (prob, recommendation prob)
  | Err e => Raised e
  end.

(** Lines 64-103. [stdin] holds the lines the six [input()] calls of the
    interactive branch read. *)
Definition main (file : ModelFile) (argv stdin : list string)
  : Exit (R * string) :=
  match file with
  | Missing => Raised (SystemExit 1)
  | Unparsable => Raised JSONDecodeError
  | Parsed model_data =>
      if (List.length argv <? 6)%nat
      then
        match stdin with
        | model_id :: action_v :: language_v :: complexity_v :: cw :: rest =>
            match int_of_string cw with
            | None => Raised ValueError
            | Some context_window =>
                match rest with
                | [] => RaisedEOF
                | cost :: _ =>
                    match float_of_string cost with
                    | None => Raised ValueError
                    | Some cost_per_1m =>
                        predict_and_report model_data model_id action_v
                          language_v complexity_v context_window cost_per_1m
                    end
                end
            end
        | _ => RaisedEOF
        end
      else
        match argv with
        | _ :: model_id :: action_v :: language_v :: complexity_v :: cw :: rest =>
            match int_of_string cw with
            | None => Raised ValueError
            | Some context_window =>
                match rest with
                | [] => Raised IndexError
                | cost :: _ =>
                    match float_of_string cost with
                    | None => Raised ValueError
                    | Some cost_per_1m =>
                        predict_and_report model_data model_id action_v
                          language_v complexity_v context_window cost_per_1m
                    end
                end
            end
        | _ => Raised IndexError
        end
  end.

End Main.

End RecommenderCli.

(** ** Further sample artifacts *)

Module MoreFixtures.

#[local] Open Scope R_scope.

(** A binary artifact as [train.py] exports it when the training data holds
    two labels only: one coefficient row and one intercept for two classes. *)
Definition binary : Model := {|
  tfidf := {| vocabulary := <["deploy" := 0%Z]> ∅; idf_weights := [1] |};
  classifier := {| coefficients := [[1]];
                   intercepts := [0];
                   classes := ["simple"; "complex"] |}
|}.

(** An idf table shorter than the vocabulary. *)
Definition short_idf : Model := {|
  tfidf := {| vocabulary := <["deploy" := 0%Z]> (<["docker" := 1%Z]> ∅);
              idf_weights := [1] |};
  classifier := {| coefficients := [[0; 0]; [1; 1]; [0; 0]];
                   intercepts := [0; 0; 0];
                   classes := Fixtures.three_classes |}
|}.


End MoreFixtures.

(** * Properties *)

(** ** Sample evaluations *)

Example tokenize_fixture :
  Tokenizer.tokenize "Deploy docker, a K8s_x!" = ["deploy"; "docker"; "k8s_x"].
Proof. reflexivity. Qed.

Example contains_padded :
  Text.contains " do first this " " first " = true
  /\ Text.contains " firstly " " first " = false.
Proof. split; reflexivity. Qed.

Example extract_features_qwen :
  Recommender.extract_model_features "Qwen-2.5-Coder-32B" = Ok (1%Z, 0%Z, 32%Z).
Proof. reflexivity. Qed.

Example cue_counts :
  Complexity.any_cue Complexity.complex_cues (Complexity.padded "Deploy Docker") = true
  /\ Complexity.any_cue Complexity.multistep_cues (Complexity.padded "Deploy Docker") = false.
Proof. split; reflexivity. Qed.

(** ** Sums and lookups *)

Lemma lookup_map {A B : Type} (f : A -> B) (l : list A) (i : nat) :
  map f l !! i = f <$> (l !! i).
Proof. exact (list_lookup_fmap f l i). Qed.

Lemma elem_of_map {A B : Type} (f : A -> B) (l : list A) (y : B) :
  y ∈ map f l <-> exists x, y = f x /\ x ∈ l.
Proof. exact (list_elem_of_fmap f l y). Qed.

Section NpFacts.

#[local] Open Scope R_scope.


Lemma sum_nonneg (l : list R) :
  Forall (fun e => 0 <= e) l -> 0 <= Np.sum l.
Proof.
  induction 1 as [|e l He _ IH]; simpl; lra.
Qed.

Lemma sum_pos (l : list R) :
  l <> [] -> Forall (fun e => 0 < e) l -> 0 < Np.sum l.
Proof.
  intros Hne Hall. destruct Hall as [|e l He Hl]; [congruence|].
  simpl. assert (0 <= Np.sum l); [|lra].
  apply sum_nonneg. eapply Forall_impl; [exact Hl|]. simpl. intros; lra.
Qed.



End NpFacts.

(** ** The decision layer: [softmax] *)

Section Softmax.

#[local] Open Scope R_scope.

Lemma softmax_unfold (x0 : R) (x : list R) :
  let m := fold_left Rmax x x0 in
  let exp_x := map (fun v => exp (v - m)) (x0 :: x) in
  Complexity.softmax (x0 :: x) = Ok (map (fun e => e / Np.sum exp_x) exp_x).
Proof. reflexivity. Qed.




End Softmax.

(** ** The vectorizer *)

Section VectorizerFacts.

#[local] Open Scope R_scope.

Implicit Types (voc : gmap string Z) (idf : list R) (toks : list string).


Lemma set_idf_ok voc idf :
  Vectorizer.set_idf voc idf = Ok tt <->
  Vectorizer.validate_vocabulary voc = Ok tt /\ size voc = List.length idf.
Proof.
  unfold Vectorizer.set_idf.
  destruct (Vectorizer.validate_vocabulary voc) as [[]|e]; simpl.
  - destruct (size voc =? List.length idf)%nat eqn:Hl.
    + apply Nat.eqb_eq in Hl. tauto.
    + apply Nat.eqb_neq in Hl. split; [discriminate|tauto].
  - split; [discriminate|]. intros [? _]; discriminate.
Qed.




Lemma term_count_none voc toks (j : nat) :
  (forall t, t ∈ toks -> voc !! t = None) ->
  Vectorizer.term_count voc toks j = 0%nat.
Proof.
  intros Hnone. unfold Vectorizer.term_count.
  destruct (filter _ toks) as [|t l] eqn:Hf; [reflexivity|].
  assert (t ∈ filter (fun t => voc !! t = Some (Z.of_nat j)) toks) as Ht.
  { rewrite Hf. left. }
  apply list_elem_of_filter in Ht as [Ht Hin]. rewrite (Hnone t Hin) in Ht.
  discriminate.
Qed.

Lemma counts_length voc toks :
  List.length (Vectorizer.counts voc toks) = size voc.
Proof. unfold Vectorizer.counts. now rewrite length_map, length_seq. Qed.

Lemma counts_lookup voc toks (j : nat) :
  (j < size voc)%nat ->
  Vectorizer.counts voc toks !! j = Some (Vectorizer.term_count voc toks j).
Proof.
  intros Hj. unfold Vectorizer.counts.
  rewrite lookup_map, lookup_seq_lt by lia. reflexivity.
Qed.

Lemma raw_tfidf_length voc idf toks :
  size voc = List.length idf ->
  List.length (Vectorizer.raw_tfidf voc idf toks) = size voc.
Proof.
  intros Hl. unfold Vectorizer.raw_tfidf.
  rewrite length_zip_with, counts_length. lia.
Qed.

Lemma raw_tfidf_lookup voc idf toks (j : nat) (w : R) :
  (j < size voc)%nat -> idf !! j = Some w ->
  Vectorizer.raw_tfidf voc idf toks !! j
  = Some (INR (Vectorizer.term_count voc toks j) * w).
Proof.
  intros Hj Hw. unfold Vectorizer.raw_tfidf.
  rewrite lookup_zip_with, counts_lookup, Hw by exact Hj. reflexivity.
Qed.

Lemma raw_tfidf_none voc idf toks :
  size voc = List.length idf ->
  (forall t, t ∈ toks -> voc !! t = None) ->
  Vectorizer.raw_tfidf voc idf toks = replicate (size voc) 0.
Proof.
  intros Hl Hnone. apply list_eq. intros j.
  destruct (decide (j < size voc)%nat) as [Hj|Hj].
  - destruct (lookup_lt_is_Some_2 idf j) as [w Hw]; [lia|].
    rewrite (raw_tfidf_lookup _ _ _ _ w Hj Hw), term_count_none by exact Hnone.
    rewrite lookup_replicate_2 by exact Hj. simpl. f_equal. ring.
  - rewrite !lookup_ge_None_2; [reflexivity| |].
    + rewrite length_replicate. lia.
    + rewrite raw_tfidf_length by exact Hl. lia.
Qed.

End VectorizerFacts.

Section Normalization.

#[local] Open Scope R_scope.


Lemma l2_normalize_skip (row : list R) :
  Np.sum (map (fun x => x * x) row) = 0 -> Vectorizer.l2_normalize row = row.
Proof.
  intros Hs. unfold Vectorizer.l2_normalize.
  destruct (Req_dec_T _ 0) as [_|Hne]; [reflexivity|contradiction].
Qed.


Lemma length_l2_normalize (row : list R) :
  List.length (Vectorizer.l2_normalize row) = List.length row.
Proof.
  unfold Vectorizer.l2_normalize.
  destruct (Req_dec_T _ 0); [reflexivity|apply length_map].
Qed.


Lemma zeros_sum_squares (n : nat) :
  Np.sum (map (fun x => x * x) (replicate n 0)) = 0.
Proof. induction n as [|n IH]; simpl; [reflexivity|]. rewrite IH. ring. Qed.

Lemma transform_ok voc idf doc :
  Vectorizer.set_idf voc idf = Ok tt ->
  Vectorizer.transform voc idf doc
  = Ok (Vectorizer.l2_normalize
          (Vectorizer.raw_tfidf voc idf (Tokenizer.tokenize doc))).
Proof. intros Hset. unfold Vectorizer.transform. now rewrite Hset. Qed.

(** With no token of the document in the vocabulary the feature vector is
    the all-zero raw vector, returned through the skip branch. *)
Lemma transform_no_token voc idf doc :
  Vectorizer.set_idf voc idf = Ok tt ->
  (forall t, t ∈ Tokenizer.tokenize doc -> voc !! t = None) ->
  Vectorizer.transform voc idf doc = Ok (replicate (size voc) 0).
Proof.
  intros Hset Hnone. rewrite transform_ok by exact Hset.
  apply set_idf_ok in Hset as [_ Hlen].
  rewrite raw_tfidf_none by assumption.
  now rewrite l2_normalize_skip by apply zeros_sum_squares.
Qed.


End Normalization.

(** ** The calls as functions of the artifact *)

Section Runs.

#[local] Open Scope R_scope.

Implicit Types (m : Model) (doc : string).

Lemma features_eq doc m :
  Complexity.features doc m
  = (Vectorizer.transform (vocabulary (tfidf m)) (idf_weights (tfidf m)) doc, m).
Proof. reflexivity. Qed.

Lemma raw_scores_eq doc m :
  Complexity.raw_scores doc m
  = (res_bind (Vectorizer.transform (vocabulary (tfidf m)) (idf_weights (tfidf m)) doc)
       (fun X_array =>
        res_bind (Np.dot (coefficients (classifier m)) X_array)
          (fun d => Np.add d (intercepts (classifier m)))), m).
Proof.
  unfold Complexity.raw_scores, mbind, py_bind, bind.
  rewrite features_eq. destruct (Vectorizer.transform _ _ _); reflexivity.
Qed.

Lemma adjusted_scores_eq doc m :
  Complexity.adjusted_scores doc m
  = (res_bind (run (Complexity.raw_scores doc) m)
       (Complexity.overlay (classes (classifier m)) doc), m).
Proof.
  unfold Complexity.adjusted_scores, run, mbind, py_bind, bind.
  rewrite raw_scores_eq. simpl. destruct (res_bind _ _); reflexivity.
Qed.

Lemma predict_eq doc m :
  Complexity.predict doc m
  = (res_bind (run (Complexity.adjusted_scores doc) m)
       (Complexity.decision (classes (classifier m))), m).
Proof.
  unfold Complexity.predict, run, mbind, py_bind, bind.
  rewrite adjusted_scores_eq. simpl.
  destruct (res_bind _ _); reflexivity.
Qed.


End Runs.

(** Expose the stages of a [classify] call in the goal. *)
Ltac classify_stages :=
  unfold Complexity.classify; rewrite predict_eq; simpl fst;
  unfold run at 1; rewrite adjusted_scores_eq; simpl fst.

(** ** Arg-max and the returned dictionary *)

Section Decision.

#[local] Open Scope R_scope.
#[local] Open Scope list_scope.

Lemma argmax_from_max (a pre : list R) (best_i : nat) (best : R) :
  pre !! best_i = Some best ->
  Forall (fun y => y <= best) pre ->
  exists x,
    (pre ++ a) !! Np.argmax_from best_i best (List.length pre) a = Some x
    /\ Forall (fun y => y <= x) (pre ++ a).
Proof.
  revert pre best_i best.
  induction a as [|y a IH]; intros pre best_i best Hbest Hall; simpl.
  - exists best. rewrite app_nil_r. split; assumption.
  - replace (pre ++ y :: a) with ((pre ++ [y]) ++ a) by now rewrite <- app_assoc.
    replace (S (List.length pre)) with (List.length (pre ++ [y]))
      by (rewrite length_app; simpl; lia).
    destruct (Rlt_dec best y) as [Hlt|Hge].
    + apply IH.
      * rewrite lookup_app_r by lia. now rewrite Nat.sub_diag.
      * apply Forall_app. split; [|apply Forall_singleton; lra].
        eapply Forall_impl; [exact Hall|]. simpl. intros; lra.
    + apply IH.
      * rewrite lookup_app_l; [exact Hbest|]. now apply lookup_lt_Some in Hbest.
      * apply Forall_app. split; [exact Hall|]. apply Forall_singleton. lra.
Qed.

(** [np.argmax] returns a position of the array that holds its maximum. *)
Lemma argmax_spec (a : list R) (i : nat) :
  Np.argmax a = Ok i ->
  exists x, a !! i = Some x /\ forall j y, a !! j = Some y -> y <= x.
Proof.
  destruct a as [|x0 a]; simpl; [discriminate|]. intros [= <-].
  destruct (argmax_from_max a [x0] 0%nat x0) as (x & Hx & Hall).
  - reflexivity.
  - apply Forall_singleton. lra.
  - exists x. split; [exact Hx|]. intros j y Hj.
    rewrite Forall_lookup in Hall. exact (Hall j y Hj).
Qed.

Lemma argmax_ok (a : list R) : a <> [] -> exists i, Np.argmax a = Ok i.
Proof. destruct a; [congruence|]. intros _. eexists. reflexivity. Qed.

Lemma probabilities_dict_ok (classes : list string) :
  forall (acc : gmap string R) (probs : list R),
    (List.length classes <= List.length probs)%nat ->
    exists d, Complexity.probabilities_dict acc classes probs = Ok d.
Proof.
  induction classes as [|c classes IH]; intros acc probs Hlen; simpl.
  - eexists. reflexivity.
  - destruct probs as [|p probs]; simpl in Hlen; [lia|]. apply IH. lia.
Qed.

(** Without duplicate class names the dictionary maps the class at each
    position to the probability at that position, and leaves the other keys
    as they were. *)
Lemma probabilities_dict_spec (classes : list string) :
  forall (acc d : gmap string R) (probs : list R),
    NoDup classes ->
    Complexity.probabilities_dict acc classes probs = Ok d ->
    (List.length classes <= List.length probs)%nat
    /\ (forall i c, classes !! i = Some c -> d !! c = probs !! i)
    /\ (forall c, c ∉ classes -> d !! c = acc !! c).
Proof.
  induction classes as [|c0 classes IH]; intros acc d probs Hnd Hd; simpl in Hd.
  - injection Hd as <-. split; [simpl; lia|]. split; [|reflexivity].
    intros i c Hi. rewrite lookup_nil in Hi. discriminate.
  - destruct probs as [|p0 probs]; [discriminate|].
    apply NoDup_cons in Hnd as [Hc0 Hnd].
    destruct (IH _ _ _ Hnd Hd) as (Hlen & Hpos & Hout).
    split; [simpl; lia|]. split.
    + intros [|i] c Hi; simpl in *.
      * injection Hi as <-. rewrite (Hout _ Hc0). apply lookup_insert_eq.
      * apply Hpos, Hi.
    + intros c Hc. apply not_elem_of_cons in Hc as [Hne Hc].
      rewrite (Hout _ Hc). now apply lookup_insert_ne.
Qed.

Lemma softmax_length (x p : list R) :
  Complexity.softmax x = Ok p -> List.length p = List.length x.
Proof.
  destruct x as [|x0 x]; [discriminate|]. rewrite softmax_unfold.
  intros [= <-]. simpl. now rewrite !length_map.
Qed.

Lemma softmax_ok (x : list R) : x <> [] -> exists p, Complexity.softmax x = Ok p.
Proof.
  destruct x as [|x0 x]; [congruence|]. intros _. rewrite softmax_unfold.
  eexists. reflexivity.
Qed.

(** What a successful run of lines 57-63 returns. *)
Lemma decision_inv (classes : list string) (scores : list R)
  (r : Complexity.Prediction) :
  Complexity.decision classes scores = Ok r ->
  exists probs i,
    Complexity.softmax scores = Ok probs
    /\ Np.argmax probs = Ok i
    /\ classes !! i = Some (Complexity.label r)
    /\ probs !! i = Some (Complexity.confidence r)
    /\ Complexity.probabilities_dict ∅ classes probs = Ok (Complexity.probabilities r).
Proof.
  unfold Complexity.decision, subscript.
  destruct (Complexity.softmax scores) as [probs|] eqn:Hp; [simpl|discriminate].
  destruct (Np.argmax probs) as [i|] eqn:Hi; [simpl|discriminate].
  destruct (classes !! i) as [lbl|] eqn:Hlbl; [simpl|discriminate].
  destruct (probs !! i) as [conf|] eqn:Hconf; [simpl|discriminate].
  destruct (Complexity.probabilities_dict ∅ classes probs) as [d|] eqn:Hd;
    [simpl|discriminate].
  intros [= <-]. exists probs, i. simpl. auto.
Qed.

Lemma decision_ok (classes : list string) (scores : list R) :
  scores <> [] -> List.length scores = List.length classes ->
  exists r, Complexity.decision classes scores = Ok r.
Proof.
  intros Hne Hlen. unfold Complexity.decision.
  destruct (softmax_ok scores Hne) as [probs Hp]. rewrite Hp. simpl.
  pose proof (softmax_length _ _ Hp) as Hpl.
  assert (probs <> []) as Hpne.
  { intros ->. destruct scores; [congruence|discriminate]. }
  destruct (argmax_ok probs Hpne) as [i Hi]. rewrite Hi. simpl.
  destruct (argmax_spec _ _ Hi) as (x & Hx & _).
  pose proof (lookup_lt_Some _ _ _ Hx) as Hlt.
  destruct (lookup_lt_is_Some_2 classes i) as [lbl Hlbl]; [lia|].
  unfold subscript. rewrite Hlbl, Hx. simpl.
  destruct (probabilities_dict_ok classes ∅ probs) as [d Hd]; [lia|].
  rewrite Hd. simpl. eexists. reflexivity.
Qed.

Lemma classify_inv (m : Model) (doc : string) (r : Complexity.Prediction) :
  Complexity.classify m doc = Ok r ->
  exists scores,
    run (Complexity.adjusted_scores doc) m = Ok scores
    /\ Complexity.decision (classes (classifier m)) scores = Ok r.
Proof.
  unfold Complexity.classify. rewrite predict_eq. simpl.
  destruct (run _ m) as [scores|]; [simpl|discriminate].
  intros Hr. exists scores. split; [reflexivity|exact Hr].
Qed.

(** C9: when the class names are pairwise distinct, a result returned by
    [classify] has its confidence stored under its label in the probability
    dictionary, the dictionary has exactly one entry per class, and no entry
    exceeds the confidence. *)
Theorem prediction_consistent (m : Model) (doc : string)
  (r : Complexity.Prediction) :
  NoDup (classes (classifier m)) ->
  Complexity.classify m doc = Ok r ->
  Complexity.probabilities r !! Complexity.label r = Some (Complexity.confidence r)
  /\ (forall c, is_Some (Complexity.probabilities r !! c) <-> c ∈ classes (classifier m))
  /\ size (Complexity.probabilities r) = List.length (classes (classifier m))
  /\ (forall c p, Complexity.probabilities r !! c = Some p ->
                  p <= Complexity.confidence r).
Proof.
  intros Hnd Hr.
  destruct (classify_inv _ _ _ Hr) as (scores & _ & Hdec).
  destruct (decision_inv _ _ _ Hdec) as (probs & i & _ & Hi & Hlbl & Hconf & Hd).
  destruct (probabilities_dict_spec _ _ _ _ Hnd Hd) as (Hlen & Hpos & Hout).
  destruct (argmax_spec _ _ Hi) as (x & Hx & Hmax).
  assert (x = Complexity.confidence r) as -> by congruence.
  assert (forall c, is_Some (Complexity.probabilities r !! c)
                    <-> c ∈ classes (classifier m)) as Hdom.
  { intros c. split.
    - intros Hsome. destruct (decide (c ∈ classes (classifier m))) as [|Hc];
        [assumption|].
      rewrite (Hout c Hc), lookup_empty in Hsome. now destruct Hsome.
    - intros Hc. apply list_elem_of_lookup in Hc as [j Hj].
      rewrite (Hpos j c Hj). apply lookup_lt_is_Some_2.
      apply lookup_lt_Some in Hj. lia. }
  split; [|split; [exact Hdom|split]].
  - rewrite (Hpos i _ Hlbl). exact Hconf.
  - rewrite <- size_dom, <- (size_list_to_set (C := gset string)) by exact Hnd.
    f_equal. apply set_eq. intros c.
    rewrite elem_of_dom, elem_of_list_to_set. apply Hdom.
  - intros c p Hp.
    assert (c ∈ classes (classifier m)) as Hc by (apply Hdom; eauto).
    apply list_elem_of_lookup in Hc as [j Hj].
    rewrite (Hpos j c Hj) in Hp. exact (Hmax j p Hp).
Qed.

End Decision.

(** ** The linear scorer *)

Section Scorer.

#[local] Open Scope R_scope.
#[local] Open Scope list_scope.

Lemma dot_ok (rows : list (list R)) (x : list R) :
  rows <> [] ->
  Forall (fun row => List.length row = List.length x) rows ->
  Np.dot rows x = Ok (map (fun row => Np.inner row x) rows).
Proof.
  intros Hne Hall. unfold Np.dot. destruct rows as [|row rows]; [congruence|].
  replace (forallb _ _) with true; [reflexivity|].
  symmetry. apply forallb_forall. intros r Hr. apply Nat.eqb_eq.
  rewrite Forall_forall in Hall. apply Hall. now apply list_elem_of_In.
Qed.

Lemma add_same_length (a b : list R) :
  List.length a = List.length b -> Np.add a b = Ok (zip_with Rplus a b).
Proof. intros Hl. unfold Np.add. now rewrite Hl, Nat.eqb_refl. Qed.

Lemma inner_zeros (row : list R) (n : nat) : Np.inner row (replicate n 0) = 0.
Proof.
  unfold Np.inner. revert n. induction row as [|c row IH]; intros [|n]; simpl;
    try reflexivity.
  rewrite IH. ring.
Qed.

Lemma zeros_plus (rows : list (list R)) (n : nat) (b : list R) :
  List.length rows = List.length b ->
  zip_with Rplus (map (fun row => Np.inner row (replicate n 0)) rows) b = b.
Proof.
  revert b. induction rows as [|row rows IH]; intros [|y b] Hl; simpl in *;
    try reflexivity; try discriminate.
  rewrite inner_zeros, IH by lia. f_equal. ring.
Qed.

(** On a well-formed artifact lines 39-46 return one logit per class. *)
Lemma raw_scores_ok (m : Model) (doc : string) :
  well_formed m ->
  exists X_array,
    run (Complexity.features doc) m = Ok X_array
    /\ List.length X_array = size (vocabulary (tfidf m))
    /\ run (Complexity.raw_scores doc) m
       = Ok (zip_with Rplus
               (map (fun row => Np.inner row X_array) (coefficients (classifier m)))
               (intercepts (classifier m))).
Proof.
  intros [Hvec Hcols Hrows Hics Hcls].
  unfold run. rewrite features_eq, raw_scores_eq. simpl.
  rewrite transform_ok by exact Hvec.
  set (X := Vectorizer.l2_normalize _).
  assert (List.length X = size (vocabulary (tfidf m))) as HX.
  { unfold X. rewrite length_l2_normalize. apply raw_tfidf_length.
    now apply set_idf_ok in Hvec. }
  exists X. split; [reflexivity|]. split; [exact HX|]. simpl.
  rewrite dot_ok; simpl.
  - apply add_same_length. rewrite length_map. lia.
  - intros Hnil. rewrite Hnil in Hrows. simpl in Hrows.
    destruct (classes (classifier m)); [congruence|discriminate].
  - now rewrite HX.
Qed.

Lemma raw_scores_length (m : Model) (doc : string) :
  well_formed m ->
  exists scores,
    run (Complexity.raw_scores doc) m = Ok scores
    /\ List.length scores = List.length (classes (classifier m)).
Proof.
  intros Hwf. destruct (raw_scores_ok m doc Hwf) as (X & _ & _ & Hs).
  eexists. split; [exact Hs|]. destruct Hwf as [_ _ Hrows Hics _].
  rewrite length_zip_with, length_map. lia.
Qed.

End Scorer.

(** ** The cue bonuses *)

Section Overlay.

#[local] Open Scope R_scope.
#[local] Open Scope list_scope.

Lemma add_at_ok (i : nat) (v : R) (a : list R) (x : R) :
  a !! i = Some x -> Np.add_at i v a = Ok (<[i := x + v]> a).
Proof. intros Hx. unfold Np.add_at. now rewrite Hx. Qed.



Lemma class_index_present (name : string) (fallback : nat) (classes : list string) :
  name ∈ classes ->
  classes !! Complexity.class_index name fallback classes = Some name.
Proof.
  intros Hn. unfold Complexity.class_index.
  destruct (list_find _ classes) as [[i c]|] eqn:Hf.
  - apply list_find_Some in Hf as (Hi & -> & _). exact Hi.
  - apply list_find_None in Hf. rewrite Forall_forall in Hf.
    exfalso. exact (Hf name Hn eq_refl).
Qed.

Lemma two_bumps (scores : list R) (im ic : nat) (bm bc : bool) :
  (ic < List.length scores)%nat ->
  (im < List.length scores)%nat ->
  exists adjusted,
    res_bind (if bm then Np.add_at im 1 scores else Ok scores)
      (fun s => if bc then Np.add_at ic 1.5 s else Ok s) = Ok adjusted
    /\ List.length adjusted = List.length scores
    /\ forall i x, scores !! i = Some x ->
         adjusted !! i
         = Some (x + ((if bool_decide (i = im) && bm then 1 else 0)
                      + (if bool_decide (i = ic) && bc then 1.5 else 0))).
Proof.
  intros Hc Hm.
  destruct (lookup_lt_is_Some_2 scores _ Hm) as [xm Hxm].
  destruct (lookup_lt_is_Some_2 scores _ Hc) as [xc Hxc].
  destruct bm, bc; rewrite ?(add_at_ok _ _ _ _ Hxm); simpl.
  - destruct (lookup_lt_is_Some_2 (<[im := xm + 1]> scores) ic) as [xc' Hxc'].
    { now rewrite length_insert. }
    rewrite (add_at_ok _ _ _ _ Hxc'). eexists. split; [reflexivity|].
    split; [now rewrite !length_insert|].
    intros i x Hi. rewrite !andb_true_r.
    destruct (decide (i = ic)) as [->|Hic], (decide (ic = im)) as [->|Hne].
    + rewrite list_lookup_insert_eq by now rewrite length_insert.
      rewrite list_lookup_insert_eq in Hxc' by exact Hm.
      rewrite !bool_decide_eq_true_2 by reflexivity.
      f_equal. replace xc' with (x + 1) by congruence. ring.
    + rewrite list_lookup_insert_eq by now rewrite length_insert.
      rewrite list_lookup_insert_ne in Hxc' by congruence.
      rewrite bool_decide_eq_false_2 by exact Hne.
      rewrite bool_decide_eq_true_2 by reflexivity.
      f_equal. replace xc' with x by congruence. ring.
    + rewrite !list_lookup_insert_ne by congruence.
      rewrite !(bool_decide_eq_false_2 _ Hic), Hi. f_equal. ring.
    + rewrite list_lookup_insert_ne by congruence.
      rewrite (bool_decide_eq_false_2 _ Hic).
      destruct (decide (i = im)) as [->|Him].
      * rewrite list_lookup_insert_eq by exact Hm.
        rewrite bool_decide_eq_true_2 by reflexivity.
        f_equal. replace xm with x by congruence. ring.
      * rewrite list_lookup_insert_ne by congruence.
        rewrite (bool_decide_eq_false_2 _ Him), Hi. f_equal. ring.
  - eexists. split; [reflexivity|]. split; [now rewrite length_insert|].
    intros i x Hi. rewrite andb_true_r, andb_false_r.
    destruct (decide (i = im)) as [->|Him].
    + rewrite list_lookup_insert_eq by exact Hm.
      rewrite bool_decide_eq_true_2 by reflexivity.
      f_equal. replace xm with x by congruence. ring.
    + rewrite list_lookup_insert_ne by congruence.
      rewrite (bool_decide_eq_false_2 _ Him), Hi. f_equal. ring.
  - rewrite (add_at_ok _ _ _ _ Hxc). eexists. split; [reflexivity|].
    split; [now rewrite length_insert|].
    intros i x Hi. rewrite andb_true_r, andb_false_r.
    destruct (decide (i = ic)) as [->|Hic].
    + rewrite list_lookup_insert_eq by exact Hc.
      rewrite bool_decide_eq_true_2 by reflexivity.
      f_equal. replace xc with x by congruence. ring.
    + rewrite list_lookup_insert_ne by congruence.
      rewrite (bool_decide_eq_false_2 _ Hic), Hi. f_equal. ring.
  - eexists. split; [reflexivity|]. split; [reflexivity|].
    intros i x Hi. rewrite !andb_false_r, Hi. f_equal. ring.
Qed.

Lemma overlay_spec (classes : list string) (doc : string) (scores : list R) :
  (Complexity.idx_complex classes < List.length scores)%nat ->
  (Complexity.idx_multistep classes < List.length scores)%nat ->
  exists adjusted,
    Complexity.overlay classes doc scores = Ok adjusted
    /\ List.length adjusted = List.length scores
    /\ forall i x, scores !! i = Some x ->
                   adjusted !! i = Some (x + bonus classes doc i).
Proof. intros Hc Hm. exact (two_bumps scores _ _ _ _ Hc Hm). Qed.

End Overlay.

(** ** Evaluation of the fixtures *)

Section FixtureFacts.

#[local] Open Scope R_scope.
#[local] Open Scope list_scope.

Lemma three_classes_indices :
  Complexity.idx_simple Fixtures.three_classes = 0%nat
  /\ Complexity.idx_complex Fixtures.three_classes = 1%nat
  /\ Complexity.idx_multistep Fixtures.three_classes = 2%nat.
Proof. repeat split; vm_compute; reflexivity. Qed.

Lemma three_classes_in_range : overlay_in_range Fixtures.three_classes.
Proof. split; vm_compute; lia. Qed.

Lemma deploy_docker_wf : well_formed Fixtures.deploy_docker.
Proof.
  split; simpl.
  - vm_compute. reflexivity.
  - repeat constructor.
  - reflexivity.
  - reflexivity.
  - discriminate.
Qed.

Lemma two_classes_wf : well_formed Fixtures.two_classes.
Proof.
  split; simpl.
  - vm_compute. reflexivity.
  - repeat constructor.
  - reflexivity.
  - reflexivity.
  - discriminate.
Qed.

Lemma sqrt2_square : sqrt 2 * sqrt 2 = 2.
Proof. apply sqrt_sqrt. lra. Qed.

Lemma sqrt2_bounds : 1.4142 < sqrt 2 < 1.4143.
Proof.
  pose proof sqrt2_square as Hsq.
  pose proof (sqrt_pos 2) as Hpos. split; nra.
Qed.

Lemma inv_sqrt2 : 1 / sqrt 2 = sqrt 2 / 2.
Proof.
  pose proof sqrt2_square as Hsq. pose proof sqrt2_bounds as Hb.
  apply Rmult_eq_reg_r with (sqrt 2); [|lra].
  field_simplify; lra.
Qed.

Lemma deploy_docker_tokens :
  Tokenizer.tokenize "deploy docker" = ["deploy"; "docker"]%string.
Proof. reflexivity. Qed.

Lemma deploy_docker_counts :
  Vectorizer.counts (<["deploy" := 0%Z]> (<["docker" := 1%Z]> ∅))
    ["deploy"; "docker"]%string = [1; 1]%nat.
Proof. vm_compute. reflexivity. Qed.

Lemma deploy_docker_features :
  run (Complexity.features "deploy docker") Fixtures.deploy_docker
  = Ok [1 / sqrt 2; 1 / sqrt 2].
Proof.
  unfold run. rewrite features_eq. simpl fst.
  rewrite transform_ok by apply deploy_docker_wf.
  rewrite deploy_docker_tokens. unfold Vectorizer.raw_tfidf.
  rewrite deploy_docker_counts. simpl.
  unfold Vectorizer.l2_normalize. simpl.
  replace (1 * 1 * (1 * 1) + (1 * 1 * (1 * 1) + 0)) with 2 by ring.
  destruct (Req_dec_T 2 0) as [H|_]; [lra|].
  now rewrite Rmult_1_l.
Qed.

Lemma deploy_docker_raw :
  run (Complexity.raw_scores "deploy docker") Fixtures.deploy_docker
  = Ok [0; sqrt 2; 0].
Proof.
  pose proof deploy_docker_features as Hf.
  unfold run in *. rewrite features_eq in Hf. rewrite raw_scores_eq.
  simpl fst in *. rewrite Hf. simpl. unfold Np.inner. simpl.
  unfold Np.add. simpl.
  replace (0 * (1 / sqrt 2) + (0 * (1 / sqrt 2) + 0) + 0) with 0 by ring.
  replace (1 * (1 / sqrt 2) + (1 * (1 / sqrt 2) + 0) + 0) with (sqrt 2)
    by (rewrite inv_sqrt2; field).
  reflexivity.
Qed.

Lemma deploy_docker_cues :
  Complexity.any_cue Complexity.multistep_cues (Complexity.padded "deploy docker") = false
  /\ Complexity.any_cue Complexity.complex_cues (Complexity.padded "deploy docker") = true.
Proof. split; reflexivity. Qed.

Lemma deploy_docker_adjusted :
  run (Complexity.adjusted_scores "deploy docker") Fixtures.deploy_docker
  = Ok [0; sqrt 2 + 1.5; 0].
Proof.
  unfold run. rewrite adjusted_scores_eq. simpl fst.
  rewrite deploy_docker_raw. simpl res_bind.
  unfold Complexity.overlay.
  destruct deploy_docker_cues as [-> ->]. simpl res_bind.
  change (classes (classifier Fixtures.deploy_docker)) with Fixtures.three_classes.
  destruct three_classes_indices as (_ & -> & _). reflexivity.
Qed.

Lemma complex_logit_bounds : 2.9142 < Fixtures.complex_logit < 2.9143.
Proof. unfold Fixtures.complex_logit. pose proof sqrt2_bounds. lra. Qed.

Lemma deploy_docker_softmax :
  Complexity.softmax [0; Fixtures.complex_logit; 0]
  = Ok (map (fun e => e / Np.sum Fixtures.weights) Fixtures.weights).
Proof.
  pose proof complex_logit_bounds as Hb.
  unfold Complexity.softmax. simpl.
  rewrite (Rmax_right 0 Fixtures.complex_logit) by lra.
  rewrite (Rmax_left Fixtures.complex_logit 0) by lra.
  reflexivity.
Qed.

Lemma weights_order :
  0 < exp (0 - Fixtures.complex_logit)
    < exp (Fixtures.complex_logit - Fixtures.complex_logit)
  /\ 0 < Np.sum Fixtures.weights.
Proof.
  pose proof complex_logit_bounds as Hb. split; [split|].
  - apply exp_pos.
  - apply exp_increasing. lra.
  - apply sum_pos; [discriminate|]. unfold Fixtures.weights.
    repeat (constructor; [apply exp_pos|]). constructor.
Qed.

Lemma deploy_docker_argmax :
  Np.argmax (map (fun e => e / Np.sum Fixtures.weights) Fixtures.weights) = Ok 1%nat.
Proof.
  destruct weights_order as [[H0 H01] HS].
  remember (Np.sum Fixtures.weights) as S eqn:HeqS. clear HeqS.
  assert (forall a b, a < b -> a / S < b / S) as Hdiv.
  { intros a b Hab. apply Rmult_lt_compat_r; [now apply Rinv_0_lt_compat|exact Hab]. }
  unfold Fixtures.weights. simpl.
  destruct (Rlt_dec _ _) as [_|Hn]; [|exfalso; apply Hn, Hdiv, H01].
  destruct (Rlt_dec _ _) as [Hlt|_]; [|reflexivity].
  exfalso. apply Hdiv in H01. lra.
Qed.

Lemma deploy_docker_decision :
  Complexity.decision Fixtures.three_classes [0; Fixtures.complex_logit; 0]
  = Ok Fixtures.deploy_docker_result.
Proof.
  unfold Complexity.decision.
  rewrite deploy_docker_softmax. cbn [res_bind].
  rewrite deploy_docker_argmax. reflexivity.
Qed.

Lemma deploy_docker_classify :
  Complexity.classify Fixtures.deploy_docker "deploy docker"
  = Ok Fixtures.deploy_docker_result.
Proof.
  unfold Complexity.classify. rewrite predict_eq. simpl fst.
  rewrite deploy_docker_adjusted. cbn [res_bind].
  exact deploy_docker_decision.
Qed.

Lemma deploy_docker_confidence :
  1 / 2 < Complexity.confidence Fixtures.deploy_docker_result.
Proof.
  pose proof complex_logit_bounds as Hb.
  assert (exp (0 - Fixtures.complex_logit) < 1 / 2) as Hsmall.
  { replace (0 - Fixtures.complex_logit) with (- Fixtures.complex_logit) by ring.
    rewrite exp_Ropp.
    pose proof (exp_ineq1 Fixtures.complex_logit ltac:(lra)) as Hexp.
    replace (1 / 2) with (/ 2) by lra.
    apply Rinv_lt_contravar; nra. }
  pose proof (exp_pos (0 - Fixtures.complex_logit)) as Hpos.
  simpl. unfold Fixtures.probability, Fixtures.weights. simpl.
  replace (Fixtures.complex_logit - Fixtures.complex_logit) with 0 by ring.
  rewrite exp_0.
  set (e := exp (0 - Fixtures.complex_logit)) in *.
  apply Rmult_lt_reg_r with (e + (1 + (e + 0))); [lra|].
  field_simplify; lra.
Qed.

Lemma existsb_matching (f : string -> bool) (l : list string) :
  existsb f l = true <-> (1 <= List.length (List.filter f l))%nat.
Proof.
  induction l as [|c l IH]; simpl.
  - split; [discriminate|lia].
  - destruct (f c); simpl; [split; [lia|reflexivity]|exact IH].
Qed.

End FixtureFacts.

(** ** The fixture of the testable properties *)

Section FixtureClaims.

#[local] Open Scope R_scope.
#[local] Open Scope list_scope.

(** C1: on the fixture artifact the text "deploy docker" has the feature
    vector [1/sqrt 2; 1/sqrt 2] (0.707 to three decimals), the raw logits
    [0; sqrt 2; 0] (1.414), the adjusted logits [0; sqrt 2 + 1.5; 0] (2.914)
    after the single +1.5 bonus on "complex", and [classify] returns the label
    "complex", with a confidence above one half. *)
Theorem fixture_deploy_docker :
  run (Complexity.features "deploy docker") Fixtures.deploy_docker
  = Ok [1 / sqrt 2; 1 / sqrt 2]
  /\ Rabs (1 / sqrt 2 - 0.707) < 0.0005
  /\ run (Complexity.raw_scores "deploy docker") Fixtures.deploy_docker
     = Ok [0; sqrt 2; 0]
  /\ Rabs (sqrt 2 - 1.414) < 0.0005
  /\ run (Complexity.adjusted_scores "deploy docker") Fixtures.deploy_docker
     = Ok [0; sqrt 2 + 1.5; 0]
  /\ Rabs (sqrt 2 + 1.5 - 2.914) < 0.0005
  /\ exists r,
       Complexity.classify Fixtures.deploy_docker "deploy docker" = Ok r
       /\ Complexity.label r = "complex"%string
       /\ 1 / 2 < Complexity.confidence r.
Proof.
  pose proof sqrt2_bounds as Hb.
  split; [exact deploy_docker_features|]. split.
  { rewrite inv_sqrt2. apply Rabs_def1; lra. }
  split; [exact deploy_docker_raw|]. split.
  { apply Rabs_def1; lra. }
  split; [exact deploy_docker_adjusted|]. split.
  { apply Rabs_def1; lra. }
  exists Fixtures.deploy_docker_result.
  split; [exact deploy_docker_classify|]. split; [reflexivity|].
  exact deploy_docker_confidence.
Qed.

End FixtureClaims.

(** ** The cue bonuses are added once *)

Section OverlayClaims.

#[local] Open Scope R_scope.
#[local] Open Scope list_scope.

(** C2 fails as stated: "deploy docker" contains the two complex cues
    "deploy" and "docker", and the "complex" logit grows by 1.5, not by
    2 * 1.5. *)
Lemma cue_bonus_accumulates_counterexample :
  ~ (forall (classes : list string) (doc : string) (scores adjusted : list R) (x : R),
       Complexity.overlay classes doc scores = Ok adjusted ->
       scores !! Complexity.idx_complex classes = Some x ->
       adjusted !! Complexity.idx_complex classes
       = Some (x + INR (matching_cues Complexity.complex_cues (Complexity.padded doc))
                   * 1.5)).
Proof.
  intros Hclaim.
  specialize (Hclaim Fixtures.three_classes "deploy docker"%string
                [0; sqrt 2; 0] [0; sqrt 2 + 1.5; 0] (sqrt 2)).
  assert (Complexity.overlay Fixtures.three_classes "deploy docker" [0; sqrt 2; 0]
          = Ok [0; sqrt 2 + 1.5; 0]) as Hov.
  { pose proof deploy_docker_adjusted as Ha. unfold run in Ha.
    rewrite adjusted_scores_eq in Ha. simpl fst in Ha.
    rewrite deploy_docker_raw in Ha. exact Ha. }
  specialize (Hclaim Hov).
  destruct three_classes_indices as (_ & Hc & _). rewrite Hc in Hclaim.
  specialize (Hclaim eq_refl).
  replace (matching_cues Complexity.complex_cues (Complexity.padded "deploy docker"))
    with 2%nat in Hclaim by reflexivity.
  simpl in Hclaim. injection Hclaim as Heq. lra.
Qed.

(** C2 (amended): when the two bonus positions are inside the logit vector,
    the overlay returns a vector of the same length in which each position
    has received its bonus once: +1.0 at the multistep position when at least
    one multistep cue occurs in the padded text, +1.5 at the complex position
    when at least one complex cue occurs, whatever the number of matching
    cues. *)
Theorem cue_bonus_added_once (classes : list string) (doc : string)
  (scores : list R) :
  (Complexity.idx_complex classes < List.length scores)%nat ->
  (Complexity.idx_multistep classes < List.length scores)%nat ->
  exists adjusted,
    Complexity.overlay classes doc scores = Ok adjusted
    /\ List.length adjusted = List.length scores
    /\ (forall i x, scores !! i = Some x ->
                    adjusted !! i = Some (x + bonus classes doc i))
    /\ (Complexity.any_cue Complexity.complex_cues (Complexity.padded doc) = true
        <-> (1 <= matching_cues Complexity.complex_cues (Complexity.padded doc))%nat)
    /\ (Complexity.any_cue Complexity.multistep_cues (Complexity.padded doc) = true
        <-> (1 <= matching_cues Complexity.multistep_cues (Complexity.padded doc))%nat).
Proof.
  intros Hc Hm. destruct (overlay_spec classes doc scores Hc Hm) as (adj & H1 & H2 & H3).
  exists adj. repeat (split; [assumption|]). split; apply existsb_matching.
Qed.

Lemma cue_bonus_added_once_witness :
  exists adjusted,
    Complexity.overlay Fixtures.three_classes "deploy docker" [0; 0; 0] = Ok adjusted
    /\ List.length adjusted = 3%nat
    /\ (forall i x, [0; 0; 0] !! i = Some x ->
                    adjusted !! i
                    = Some (x + bonus Fixtures.three_classes "deploy docker" i))
    /\ (Complexity.any_cue Complexity.complex_cues (Complexity.padded "deploy docker") = true
        <-> (1 <= matching_cues Complexity.complex_cues
                    (Complexity.padded "deploy docker"))%nat)
    /\ (Complexity.any_cue Complexity.multistep_cues (Complexity.padded "deploy docker") = true
        <-> (1 <= matching_cues Complexity.multistep_cues
                    (Complexity.padded "deploy docker"))%nat).
Proof.
  apply (cue_bonus_added_once Fixtures.three_classes "deploy docker" [0; 0; 0]);
    vm_compute; lia.
Defined.

End OverlayClaims.

(** ** The norm of the feature vector *)

Section NormClaims.

#[local] Open Scope R_scope.
#[local] Open Scope list_scope.



End NormClaims.

(** ** Consistency of the returned record *)

Section ConsistencyClaims.

#[local] Open Scope R_scope.

Lemma prediction_consistent_witness :
  Complexity.probabilities Fixtures.deploy_docker_result
    !! Complexity.label Fixtures.deploy_docker_result
  = Some (Complexity.confidence Fixtures.deploy_docker_result)
  /\ (forall c, is_Some (Complexity.probabilities Fixtures.deploy_docker_result !! c)
                <-> c ∈ classes (classifier Fixtures.deploy_docker))
  /\ size (Complexity.probabilities Fixtures.deploy_docker_result)
     = List.length (classes (classifier Fixtures.deploy_docker))
  /\ (forall c p, Complexity.probabilities Fixtures.deploy_docker_result !! c = Some p ->
                  p <= Complexity.confidence Fixtures.deploy_docker_result).
Proof.
  apply (prediction_consistent Fixtures.deploy_docker "deploy docker"
           Fixtures.deploy_docker_result).
  - apply (bool_decide_unpack (NoDup Fixtures.three_classes)). vm_compute. exact I.
  - exact deploy_docker_classify.
Defined.

End ConsistencyClaims.

(** ** Texts without a known token *)

Section DegenerateClaims.

#[local] Open Scope R_scope.
#[local] Open Scope list_scope.

Lemma raw_scores_no_token (m : Model) (doc : string) :
  well_formed m ->
  (forall t, t ∈ Tokenizer.tokenize doc -> vocabulary (tfidf m) !! t = None) ->
  run (Complexity.raw_scores doc) m = Ok (intercepts (classifier m)).
Proof.
  intros Hwf Hnone. pose proof Hwf as [Hvec Hcols Hrows Hics Hcls].
  unfold run. rewrite raw_scores_eq. simpl fst.
  rewrite transform_no_token by assumption. cbn [res_bind].
  rewrite dot_ok.
  - cbn [res_bind]. rewrite add_same_length by (rewrite length_map; lia).
    f_equal. apply zeros_plus. lia.
  - intros Hnil. rewrite Hnil in Hrows. simpl in Hrows.
    destruct (classes (classifier m)); [congruence|discriminate].
  - now rewrite length_replicate.
Qed.

Lemma two_classes_first :
  (forall t, t ∈ Tokenizer.tokenize "first" ->
             vocabulary (tfidf Fixtures.two_classes) !! t = None)
  /\ Complexity.any_cue Complexity.multistep_cues (Complexity.padded "first") = true
  /\ ("multistep"%string ∉ classes (classifier Fixtures.two_classes))
  /\ Complexity.classify Fixtures.two_classes "first" = Err IndexError.
Proof.
  assert (forall t, t ∈ Tokenizer.tokenize "first" ->
                    vocabulary (tfidf Fixtures.two_classes) !! t = None) as Hnone.
  { intros t Ht. change (Tokenizer.tokenize "first") with ["first"%string] in Ht.
    apply list_elem_of_singleton in Ht as ->. reflexivity. }
  split; [exact Hnone|]. split; [reflexivity|]. split.
  { apply (bool_decide_unpack (_ ∉ _)). vm_compute. exact I. }
  classify_stages.
  rewrite (raw_scores_no_token _ _ two_classes_wf Hnone). reflexivity.
Qed.

(** C6 fails as stated: on a two-class artifact that satisfies every
    invariant, the text "first" has no token in the vocabulary and [classify]
    raises [IndexError]. *)
Lemma degenerate_text_counterexample :
  ~ (forall (m : Model) (doc : string),
       well_formed m ->
       (forall t, t ∈ Tokenizer.tokenize doc -> vocabulary (tfidf m) !! t = None) ->
       is_ok (Complexity.classify m doc)).
Proof.
  intros Hclaim. destruct two_classes_first as (Hnone & _ & _ & Herr).
  specialize (Hclaim Fixtures.two_classes "first"%string two_classes_wf Hnone).
  rewrite Herr in Hclaim. exact Hclaim.
Qed.

(** C6 (amended): on a well-formed artifact whose two bonus positions lie
    inside the class list, a text without any token in the vocabulary (the
    empty text in particular) is classified without failure: the feature
    vector is all-zero, the raw logits are the intercepts, and the returned
    result is the decision (softmax and arg-max) on the intercepts adjusted by
    the cue bonuses of the text. *)
Theorem degenerate_text_classified (m : Model) (doc : string) :
  well_formed m ->
  overlay_in_range (classes (classifier m)) ->
  (forall t, t ∈ Tokenizer.tokenize doc -> vocabulary (tfidf m) !! t = None) ->
  run (Complexity.features doc) m = Ok (replicate (size (vocabulary (tfidf m))) 0)
  /\ run (Complexity.raw_scores doc) m = Ok (intercepts (classifier m))
  /\ exists adjusted r,
       Complexity.overlay (classes (classifier m)) doc (intercepts (classifier m))
       = Ok adjusted
       /\ (forall i x, intercepts (classifier m) !! i = Some x ->
             adjusted !! i = Some (x + bonus (classes (classifier m)) doc i))
       /\ Complexity.decision (classes (classifier m)) adjusted = Ok r
       /\ Complexity.classify m doc = Ok r
       /\ exists probs i,
            Complexity.softmax adjusted = Ok probs
            /\ Np.argmax probs = Ok i
            /\ classes (classifier m) !! i = Some (Complexity.label r).
Proof.
  intros Hwf [Hc Hm] Hnone. pose proof Hwf as [Hvec Hcols Hrows Hics Hcls].
  split.
  { unfold run. rewrite features_eq. simpl fst. now apply transform_no_token. }
  pose proof (raw_scores_no_token m doc Hwf Hnone) as Hraw.
  split; [exact Hraw|].
  destruct (overlay_spec (classes (classifier m)) doc (intercepts (classifier m)))
    as (adjusted & Hov & Hlen & Hbonus); [lia|lia|].
  destruct (decision_ok (classes (classifier m)) adjusted) as [r Hr].
  { intros ->. simpl in Hlen. rewrite <- Hlen in Hics.
    destruct (classes (classifier m)); [congruence|discriminate]. }
  { lia. }
  exists adjusted, r. split; [exact Hov|]. split; [exact Hbonus|].
  split; [exact Hr|]. split.
  - classify_stages.
    rewrite Hraw. cbn [res_bind]. rewrite Hov. exact Hr.
  - destruct (decision_inv _ _ _ Hr) as (probs & i & Hp & Hi & Hl & _).
    exists probs, i. auto.
Qed.

Lemma degenerate_text_classified_witness :
  run (Complexity.features "first things") Fixtures.deploy_docker
  = Ok (replicate (size (vocabulary (tfidf Fixtures.deploy_docker))) 0)
  /\ run (Complexity.raw_scores "first things") Fixtures.deploy_docker
     = Ok (intercepts (classifier Fixtures.deploy_docker))
  /\ exists adjusted r,
       Complexity.overlay (classes (classifier Fixtures.deploy_docker)) "first things"
         (intercepts (classifier Fixtures.deploy_docker)) = Ok adjusted
       /\ (forall i x, intercepts (classifier Fixtures.deploy_docker) !! i = Some x ->
             adjusted !! i
             = Some (x + bonus (classes (classifier Fixtures.deploy_docker)) "first things" i))
       /\ Complexity.decision (classes (classifier Fixtures.deploy_docker)) adjusted = Ok r
       /\ Complexity.classify Fixtures.deploy_docker "first things" = Ok r
       /\ exists probs i,
            Complexity.softmax adjusted = Ok probs
            /\ Np.argmax probs = Ok i
            /\ classes (classifier Fixtures.deploy_docker) !! i
               = Some (Complexity.label r).
Proof.
  apply (degenerate_text_classified Fixtures.deploy_docker "first things").
  - exact deploy_docker_wf.
  - exact three_classes_in_range.
  - apply Forall_forall.
    change (Tokenizer.tokenize "first things") with ["first"%string; "things"%string].
    repeat constructor.
Defined.

End DegenerateClaims.

(** ** The fallback positions of the bonuses *)

Section FallbackClaims.

#[local] Open Scope R_scope.
#[local] Open Scope list_scope.



End FallbackClaims.

(** ** The loader *)

Section LoaderClaims.

#[local] Open Scope R_scope.
#[local] Open Scope list_scope.

Lemma three_rows_adjusted :
  run (Complexity.adjusted_scores "hello") Fixtures.three_rows_two_classes
  = Ok [0; 0; 0].
Proof.
  unfold run. rewrite adjusted_scores_eq. simpl fst.
  unfold run. rewrite raw_scores_eq. simpl fst.
  rewrite transform_no_token.
  - replace (size (<["deploy"%string := 0%Z]> (∅ : gmap string Z))) with 1%nat
      by (vm_compute; reflexivity).
    simpl. unfold Np.inner, Np.add. simpl.
    replace (0 * 0 + 0 + 0) with 0 by ring. reflexivity.
  - vm_compute. reflexivity.
  - intros t Ht. change (Tokenizer.tokenize "hello") with ["hello"%string] in Ht.
    apply list_elem_of_singleton in Ht as ->. reflexivity.
Qed.

Lemma three_rows_classify :
  exists p : R,
    Complexity.classify Fixtures.three_rows_two_classes "hello"
    = Ok {| Complexity.label := "simple";
            Complexity.confidence := p;
            Complexity.probabilities :=
              <["complex"%string := p]> (<["simple"%string := p]> ∅) |}.
Proof.
  eexists.
  unfold Complexity.classify. rewrite predict_eq. simpl fst.
  rewrite three_rows_adjusted. cbn [res_bind].
  unfold Complexity.decision, Complexity.softmax. simpl.
  set (p := exp (0 - Rmax (Rmax 0 0) 0) / _).
  destruct (Rlt_dec p p) as [Hlt|_]; [lra|].
  reflexivity.
Qed.

(** C3 fails as stated: an artifact with three coefficient rows for two
    classes is returned by [load_model] as parsed, and [predict] on it computes
    three logits and returns a dictionary with two entries. *)
Lemma loader_rejects_counterexample :
  List.length (coefficients (classifier Fixtures.three_rows_two_classes))
  <> List.length (classes (classifier Fixtures.three_rows_two_classes))
  /\ Complexity.load_model (Complexity.Parsed Fixtures.three_rows_two_classes)
     = Ok Fixtures.three_rows_two_classes
  /\ run (Complexity.adjusted_scores "hello") Fixtures.three_rows_two_classes
     = Ok [0; 0; 0]
  /\ exists r,
       Complexity.classify Fixtures.three_rows_two_classes "hello" = Ok r
       /\ size (Complexity.probabilities r) = 2%nat.
Proof.
  split; [simpl; lia|]. split; [reflexivity|]. split; [exact three_rows_adjusted|].
  destruct three_rows_classify as [p Hp]. eexists. split; [exact Hp|].
  simpl. rewrite !map_size_insert_None, map_size_empty; [reflexivity| |].
  - apply lookup_empty.
  - rewrite lookup_insert_ne by discriminate. apply lookup_empty.
Qed.

(** C3 (amended): [load_model] performs no validation. It returns the JSON
    object of the model file as parsed, whatever its dimensions, and fails
    only when the file is missing (exit status 1) or is not JSON. *)
Theorem load_model_returns_parsed (f : Complexity.ModelFile) :
  match f with
  | Complexity.Parsed m => Complexity.load_model f = Ok m
  | Complexity.Missing => Complexity.load_model f = Err (SystemExit 1)
  | Complexity.Unparsable => Complexity.load_model f = Err JSONDecodeError
  end.
Proof. destruct f; reflexivity. Qed.

End LoaderClaims.

(** ** The recommender *)

Section RecommenderClaims.

#[local] Open Scope R_scope.
#[local] Open Scope list_scope.






End RecommenderClaims.

(** * Further properties of the scripts *)

(** ** [softmax] and the arg-max *)

Section SoftmaxMore.

#[local] Open Scope R_scope.
#[local] Open Scope list_scope.

Lemma sum_map_scale (l : list R) (c : R) :
  Np.sum (map (fun v => v * c) l) = Np.sum l * c.
Proof. induction l as [|v l IH]; simpl; [ring|rewrite IH; ring]. Qed.

Lemma map_shifted_exp (m : R) (x : list R) :
  map (fun v => exp (v - m)) x = map (fun v => v * exp (- m)) (map exp x).
Proof.
  rewrite map_map. apply map_ext. intros v.
  unfold Rminus. apply exp_plus.
Qed.

Lemma exps_all_pos (x : list R) : Forall (fun e => 0 < e) (map exp x).
Proof.
  apply Forall_forall. intros e He.
  apply elem_of_map in He as (v & -> & _). apply exp_pos.
Qed.

(** The value [softmax] returns, written without the shift by the maximum. *)
Lemma softmax_plain (x : list R) :
  x <> [] ->
  Complexity.softmax x = Ok (map (fun v => exp v / Np.sum (map exp x)) x).
Proof.
  intros Hne. destruct x as [|x0 x]; [congruence|].
  rewrite softmax_unfold.
  set (m := fold_left Rmax x x0). cbv zeta.
  rewrite map_shifted_exp, sum_map_scale, !map_map. f_equal.
  assert (0 < Np.sum (map exp (x0 :: x))) as Hs.
  { apply sum_pos; [discriminate|apply exps_all_pos]. }
  pose proof (exp_pos (- m)) as Hm.
  apply map_ext. intros v. field. lra.
Qed.



Lemma argmax_from_monotone (f : R -> R) :
  (forall a b, a < b <-> f a < f b) ->
  forall (a : list R) (best_i : nat) (best : R) (i : nat),
    Np.argmax_from best_i (f best) i (map f a) = Np.argmax_from best_i best i a.
Proof.
  intros Hf. induction a as [|y a IH]; intros best_i best i; simpl; [reflexivity|].
  destruct (Rlt_dec (f best) (f y)) as [Hlt|Hge], (Rlt_dec best y) as [Hlt'|Hge'].
  - apply IH.
  - exfalso. apply Hge'. apply (proj2 (Hf best y)). exact Hlt.
  - exfalso. apply Hge. apply (proj1 (Hf best y)). exact Hlt'.
  - apply IH.
Qed.

Lemma argmax_monotone (f : R -> R) (a : list R) :
  (forall a b, a < b <-> f a < f b) ->
  Np.argmax (map f a) = Np.argmax a.
Proof.
  intros Hf. destruct a as [|x a]; [reflexivity|]. simpl.
  now rewrite argmax_from_monotone.
Qed.

Lemma argmax_softmax (x probs : list R) :
  Complexity.softmax x = Ok probs -> Np.argmax probs = Np.argmax x.
Proof.
  intros Hp. assert (x <> []) as Hne by (intros ->; discriminate).
  rewrite softmax_plain in Hp by exact Hne. injection Hp as <-.
  assert (0 < Np.sum (map exp x)) as Hs.
  { apply sum_pos; [|apply exps_all_pos]. destruct x; [congruence|discriminate]. }
  apply (argmax_monotone (fun v => exp v / Np.sum (map exp x))).
  intros a b. split.
  - intros Hab. apply Rmult_lt_compat_r; [now apply Rinv_0_lt_compat|].
    now apply exp_increasing.
  - intros Hab. apply exp_lt_inv.
    apply Rmult_lt_reg_r with (/ Np.sum (map exp x)); [now apply Rinv_0_lt_compat|].
    exact Hab.
Qed.




End SoftmaxMore.

(** ** The range of the returned probabilities *)

Section ProbabilityRange.

#[local] Open Scope R_scope.
#[local] Open Scope list_scope.









End ProbabilityRange.

(** ** The tokenizer *)

Section TokenizerFacts.

Lemma lower_char_idempotent (c : ascii) :
  Text.lower_char (Text.lower_char c) = Text.lower_char c.
Proof. destruct c as [[] [] [] [] [] [] [] []]; reflexivity. Qed.

Lemma lower_idempotent (s : string) : Text.lower (Text.lower s) = Text.lower s.
Proof.
  induction s as [|c s IH]; simpl; [reflexivity|].
  now rewrite lower_char_idempotent, IH.
Qed.

Lemma lower_app (a b : string) :
  Text.lower (a ++ b) = (Text.lower a ++ Text.lower b)%string.
Proof. induction a as [|c a IH]; simpl; [reflexivity|now rewrite IH]. Qed.

(** A character that is no word character closes the run before it. *)
Lemma word_runs_separator (c : ascii) (a b : string) (run : list ascii) :
  Text.is_word_char c = false ->
  Tokenizer.word_runs run (a ++ String c b)
  = (Tokenizer.word_runs run a ++ Tokenizer.word_runs [] b)%list.
Proof.
  intros Hc. revert run. induction a as [|d a IH]; intros run; simpl.
  - now rewrite Hc.
  - destruct (Text.is_word_char d).
    + apply IH.
    + rewrite IH. now rewrite app_assoc.
Qed.

Lemma tokenize_space (a b : string) :
  Tokenizer.tokenize (a ++ " " ++ b)
  = (Tokenizer.tokenize a ++ Tokenizer.tokenize b)%list.
Proof.
  unfold Tokenizer.tokenize. rewrite lower_app. simpl.
  now apply word_runs_separator.
Qed.

Lemma tokenize_join (args : list string) :
  Tokenizer.tokenize (Builtins.join " " args)
  = concat (map Tokenizer.tokenize args).
Proof.
  induction args as [|a args IH]; [reflexivity|].
  destruct args as [|b args].
  - simpl. now rewrite app_nil_r.
  - change (Builtins.join " " (a :: b :: args))
      with (a ++ " " ++ Builtins.join " " (b :: args))%string.
    rewrite tokenize_space, IH. reflexivity.
Qed.

End TokenizerFacts.

(** ** The feature vector as a bag of known words *)

Section BagOfWords.

#[local] Open Scope R_scope.
#[local] Open Scope list_scope.

Implicit Types (voc : gmap string Z) (idf : list R) (toks : list string).

Lemma term_count_known voc toks (j : nat) :
  Vectorizer.term_count voc toks j
  = Vectorizer.term_count voc (filter (fun t => is_Some (voc !! t)) toks) j.
Proof.
  unfold Vectorizer.term_count. induction toks as [|t toks IH]; [reflexivity|].
  rewrite !filter_cons.
  destruct (decide (voc !! t = Some (Z.of_nat j))) as [Ht|Ht].
  - rewrite decide_True by (rewrite Ht; eauto).
    rewrite filter_cons, decide_True by exact Ht. simpl. now rewrite IH.
  - destruct (decide (is_Some (voc !! t))) as [Hs|Hs]; [|exact IH].
    rewrite filter_cons, decide_False by exact Ht. exact IH.
Qed.

Lemma term_count_permutation voc toks toks' (j : nat) :
  toks ≡ₚ toks' ->
  Vectorizer.term_count voc toks j = Vectorizer.term_count voc toks' j.
Proof. intros Hp. unfold Vectorizer.term_count. now rewrite Hp. Qed.

Lemma counts_ext voc toks toks' :
  (forall j, Vectorizer.term_count voc toks j = Vectorizer.term_count voc toks' j) ->
  Vectorizer.counts voc toks = Vectorizer.counts voc toks'.
Proof. intros Hj. unfold Vectorizer.counts. apply map_ext. exact Hj. Qed.

Lemma transform_bag voc idf (a b : string) :
  filter (fun t => is_Some (voc !! t)) (Tokenizer.tokenize a)
  ≡ₚ filter (fun t => is_Some (voc !! t)) (Tokenizer.tokenize b) ->
  Vectorizer.transform voc idf a = Vectorizer.transform voc idf b.
Proof.
  intros Hp. unfold Vectorizer.transform, Vectorizer.raw_tfidf.
  rewrite (counts_ext voc (Tokenizer.tokenize a) (Tokenizer.tokenize b));
    [reflexivity|].
  intros j. rewrite (term_count_known voc (Tokenizer.tokenize a)),
    (term_count_known voc (Tokenizer.tokenize b)).
  now apply term_count_permutation.
Qed.

(** X4: the feature vector and the raw logits depend only on the bag of
    in-vocabulary tokens of the text: two texts whose known tokens agree up to
    order (whatever unknown words, punctuation or one-letter words they also
    contain) give the same features and the same raw logits, including the
    same failure. *)
Theorem features_bag_of_known_words (m : Model) (a b : string) :
  filter (fun t => is_Some (vocabulary (tfidf m) !! t)) (Tokenizer.tokenize a)
  ≡ₚ filter (fun t => is_Some (vocabulary (tfidf m) !! t)) (Tokenizer.tokenize b) ->
  run (Complexity.features a) m = run (Complexity.features b) m
  /\ run (Complexity.raw_scores a) m = run (Complexity.raw_scores b) m.
Proof.
  intros Hp. unfold run. rewrite !features_eq, !raw_scores_eq. simpl fst.
  now rewrite (transform_bag _ _ a b Hp).
Qed.

Lemma features_bag_of_known_words_witness :
  run (Complexity.features "please deploy a docker image") Fixtures.deploy_docker
  = run (Complexity.features "Docker, deploy!") Fixtures.deploy_docker
  /\ run (Complexity.raw_scores "please deploy a docker image") Fixtures.deploy_docker
     = run (Complexity.raw_scores "Docker, deploy!") Fixtures.deploy_docker.
Proof.
  apply (features_bag_of_known_words Fixtures.deploy_docker
           "please deploy a docker image" "Docker, deploy!").
  vm_compute. apply perm_swap.
Defined.

End BagOfWords.

(** ** Scale invariance of the normalized features *)

Section ScaleInvariance.

#[local] Open Scope R_scope.
#[local] Open Scope list_scope.

Implicit Types (voc : gmap string Z) (idf : list R) (toks : list string).









End ScaleInvariance.

(** ** A bound on the raw logits *)

Section LogitBound.

#[local] Open Scope R_scope.
#[local] Open Scope list_scope.







End LogitBound.

(** ** When [predict] fails *)

Section Failures.

#[local] Open Scope R_scope.
#[local] Open Scope list_scope.

Lemma add_at_ok_iff (i : nat) (v : R) (a : list R) :
  is_ok (Np.add_at i v a) <-> (i < List.length a)%nat.
Proof.
  unfold Np.add_at. destruct (a !! i) as [x|] eqn:Hx; simpl.
  - apply lookup_lt_Some in Hx. tauto.
  - apply lookup_ge_None in Hx. split; [tauto|lia].
Qed.

Lemma add_at_inv (i : nat) (v : R) (a a' : list R) :
  Np.add_at i v a = Ok a' -> List.length a' = List.length a.
Proof.
  unfold Np.add_at. destruct (a !! i); [|discriminate].
  intros [= <-]. apply length_insert.
Qed.

Lemma add_at_error (i : nat) (v : R) (a : list R) (e : PyError) :
  Np.add_at i v a = Err e -> e = IndexError.
Proof. unfold Np.add_at. destruct (a !! i); [discriminate|]. now intros [= <-]. Qed.

Lemma bumps_length (scores adjusted : list R) (im ic : nat) (bm bc : bool) :
  res_bind (if bm then Np.add_at im 1 scores else Ok scores)
    (fun s => if bc then Np.add_at ic 1.5 s else Ok s) = Ok adjusted ->
  List.length adjusted = List.length scores.
Proof.
  destruct bm.
  - destruct (Np.add_at im 1 scores) as [s1|] eqn:H1; [simpl|discriminate].
    apply add_at_inv in H1. destruct bc.
    + intros H2. apply add_at_inv in H2. lia.
    + intros [= <-]. exact H1.
  - simpl. destruct bc; [apply add_at_inv|now intros [= <-]].
Qed.

Lemma bumps_error (scores : list R) (im ic : nat) (bm bc : bool) (e : PyError) :
  res_bind (if bm then Np.add_at im 1 scores else Ok scores)
    (fun s => if bc then Np.add_at ic 1.5 s else Ok s) = Err e ->
  e = IndexError.
Proof.
  destruct bm.
  - destruct (Np.add_at im 1 scores) as [s1|e1] eqn:H1; simpl.
    + destruct bc; [apply add_at_error|discriminate].
    + intros [= <-]. now apply add_at_error in H1.
  - simpl. destruct bc; [apply add_at_error|discriminate].
Qed.

Lemma bumps_ok_iff (scores : list R) (im ic : nat) (bm bc : bool) :
  is_ok (res_bind (if bm then Np.add_at im 1 scores else Ok scores)
           (fun s => if bc then Np.add_at ic 1.5 s else Ok s))
  <-> (bm = true -> (im < List.length scores)%nat)
      /\ (bc = true -> (ic < List.length scores)%nat).
Proof.
  destruct bm.
  - destruct (Np.add_at im 1 scores) as [s1|e1] eqn:H1; simpl.
    + pose proof (add_at_inv _ _ _ _ H1) as Hl.
      assert (im < List.length scores)%nat as Hm.
      { apply (add_at_ok_iff _ 1). now rewrite H1. }
      destruct bc.
      * rewrite add_at_ok_iff, Hl. tauto.
      * simpl. split; [|tauto]. intros _. split; [tauto|discriminate].
    + split; [tauto|]. intros [Hm _]. specialize (Hm eq_refl).
      apply (add_at_ok_iff _ 1) in Hm. now rewrite H1 in Hm.
  - simpl. destruct bc.
    + rewrite add_at_ok_iff. split; [intros H; split; [discriminate|tauto]|tauto].
    + simpl. split; [|tauto]. intros _. split; discriminate.
Qed.

Lemma overlay_length (classes : list string) (doc : string)
  (scores adjusted : list R) :
  Complexity.overlay classes doc scores = Ok adjusted ->
  List.length adjusted = List.length scores.
Proof. apply bumps_length. Qed.

Lemma overlay_error (classes : list string) (doc : string) (scores : list R)
  (e : PyError) :
  Complexity.overlay classes doc scores = Err e -> e = IndexError.
Proof. apply bumps_error. Qed.

Lemma overlay_ok_iff (classes : list string) (doc : string) (scores : list R) :
  is_ok (Complexity.overlay classes doc scores)
  <-> (Complexity.any_cue Complexity.multistep_cues (Complexity.padded doc) = true ->
       (Complexity.idx_multistep classes < List.length scores)%nat)
      /\ (Complexity.any_cue Complexity.complex_cues (Complexity.padded doc) = true ->
          (Complexity.idx_complex classes < List.length scores)%nat).
Proof. apply bumps_ok_iff. Qed.

(** X8: on a well-formed artifact [predict] can fail in one way only: it
    returns a result unless a cue matches whose bonus position (the index of
    the class, or the fallback 1 or 2) is outside the class list, and the
    exception is then [IndexError]. *)
Theorem classify_fails_only_out_of_range (m : Model) (doc : string) :
  well_formed m ->
  (is_ok (Complexity.classify m doc)
   <-> (Complexity.any_cue Complexity.multistep_cues (Complexity.padded doc) = true ->
        (Complexity.idx_multistep (classes (classifier m))
         < List.length (classes (classifier m)))%nat)
       /\ (Complexity.any_cue Complexity.complex_cues (Complexity.padded doc) = true ->
           (Complexity.idx_complex (classes (classifier m))
            < List.length (classes (classifier m)))%nat))
  /\ (forall e, Complexity.classify m doc = Err e -> e = IndexError).
Proof.
  intros Hwf. destruct (raw_scores_length m doc Hwf) as (scores & Hs & Hsl).
  pose proof (overlay_ok_iff (classes (classifier m)) doc scores) as Hiff.
  rewrite Hsl in Hiff. rewrite <- Hiff.
  assert (Complexity.classify m doc
          = res_bind (Complexity.overlay (classes (classifier m)) doc scores)
              (Complexity.decision (classes (classifier m)))) as Hcl.
  { classify_stages. now rewrite Hs. }
  rewrite Hcl. clear Hcl.
  destruct (Complexity.overlay _ doc scores) as [adjusted|e0] eqn:Hov; cbn [res_bind].
  - destruct (decision_ok (classes (classifier m)) adjusted) as [r Hr].
    + intros ->. apply overlay_length in Hov. simpl in Hov.
      destruct Hwf as [_ _ _ _ Hcls]. destruct (classes (classifier m));
        [congruence|simpl in *; lia].
    + apply overlay_length in Hov. lia.
    + rewrite Hr. simpl. split; [tauto|intros e He; discriminate].
  - simpl. split; [tauto|]. intros e [= <-]. exact (overlay_error _ _ _ _ Hov).
Qed.

Lemma classify_fails_only_out_of_range_witness :
  (is_ok (Complexity.classify Fixtures.two_classes "first")
   <-> (Complexity.any_cue Complexity.multistep_cues (Complexity.padded "first") = true ->
        (Complexity.idx_multistep (classes (classifier Fixtures.two_classes))
         < List.length (classes (classifier Fixtures.two_classes)))%nat)
       /\ (Complexity.any_cue Complexity.complex_cues (Complexity.padded "first") = true ->
           (Complexity.idx_complex (classes (classifier Fixtures.two_classes))
            < List.length (classes (classifier Fixtures.two_classes)))%nat))
  /\ (forall e, Complexity.classify Fixtures.two_classes "first" = Err e ->
                e = IndexError).
Proof.
  apply (classify_fails_only_out_of_range Fixtures.two_classes "first").
  exact two_classes_wf.
Defined.

Lemma probabilities_dict_short (classes : list string) :
  forall (acc : gmap string R) (probs : list R),
    (List.length probs < List.length classes)%nat ->
    Complexity.probabilities_dict acc classes probs = Err IndexError.
Proof.
  induction classes as [|c classes IH]; intros acc probs Hlen; simpl in *; [lia|].
  destruct probs as [|p probs]; [reflexivity|]. apply IH. simpl in Hlen. lia.
Qed.

(** X9: an artifact with fewer coefficient rows than classes (as the binary
    artifact [train.py] exports for two labels: one row, one intercept, two
    classes) cannot be served: whatever the text, [predict] raises
    [IndexError], at the latest when it builds the probability dictionary. *)
Theorem fewer_rows_than_classes_fails (m : Model) (doc : string) :
  Vectorizer.set_idf (vocabulary (tfidf m)) (idf_weights (tfidf m)) = Ok tt ->
  coefficients (classifier m) <> [] ->
  Forall (fun row => List.length row = size (vocabulary (tfidf m)))
         (coefficients (classifier m)) ->
  List.length (intercepts (classifier m)) = List.length (coefficients (classifier m)) ->
  (List.length (coefficients (classifier m)) < List.length (classes (classifier m)))%nat ->
  Complexity.classify m doc = Err IndexError.
Proof.
  intros Hvec Hne Hcols Hics Hlt. classify_stages.
  unfold run. rewrite raw_scores_eq. simpl fst.
  rewrite transform_ok by exact Hvec. cbn [res_bind].
  rewrite dot_ok; [|exact Hne|].
  2:{ rewrite length_l2_normalize, raw_tfidf_length; [exact Hcols|].
      now apply set_idf_ok in Hvec. }
  cbn [res_bind]. rewrite add_same_length by (rewrite length_map; lia).
  cbn [res_bind]. set (scores := zip_with Rplus _ _).
  assert (List.length scores = List.length (coefficients (classifier m))) as Hsl.
  { unfold scores. rewrite length_zip_with, length_map. lia. }
  destruct (Complexity.overlay _ doc scores) as [adjusted|e] eqn:Hov; cbn [res_bind].
  - apply overlay_length in Hov. unfold Complexity.decision.
    destruct (softmax_ok adjusted) as [probs Hp].
    { intros ->. simpl in Hov. destruct (coefficients (classifier m));
        [congruence|simpl in *; lia]. }
    rewrite Hp. cbn [res_bind]. pose proof (softmax_length _ _ Hp) as Hpl.
    destruct (argmax_ok probs) as [i Hi].
    { intros ->. simpl in Hpl. destruct (coefficients (classifier m));
        [congruence|simpl in *; lia]. }
    rewrite Hi. cbn [res_bind].
    destruct (argmax_spec _ _ Hi) as (x & Hx & _).
    pose proof (lookup_lt_Some _ _ _ Hx) as Hlti.
    destruct (lookup_lt_is_Some_2 (classes (classifier m)) i) as [lbl Hlbl]; [lia|].
    unfold subscript. rewrite Hlbl, Hx. cbn [res_bind].
    rewrite probabilities_dict_short by lia. reflexivity.
  - now rewrite (overlay_error _ _ _ _ Hov).
Qed.

Lemma fewer_rows_than_classes_fails_witness :
  Complexity.classify MoreFixtures.binary "deploy the service" = Err IndexError.
Proof.
  apply (fewer_rows_than_classes_fails MoreFixtures.binary "deploy the service").
  - vm_compute. reflexivity.
  - discriminate.
  - repeat constructor.
  - reflexivity.
  - simpl. lia.
Defined.

Lemma set_idf_error (voc : gmap string Z) (idf : list R) :
  Vectorizer.set_idf voc idf <> Ok tt -> Vectorizer.set_idf voc idf = Err ValueError.
Proof.
  unfold Vectorizer.set_idf, Vectorizer.validate_vocabulary.
  destruct (negb _); [reflexivity|]. destruct (negb _); [reflexivity|].
  destruct (size voc =? 0)%nat; [reflexivity|]. simpl.
  destruct (size voc =? List.length idf)%nat; [congruence|reflexivity].
Qed.

(** X10: an artifact the vectorizer refuses (repeated or missing vocabulary
    indices, an empty vocabulary, an idf table whose length is not the
    vocabulary size) or whose coefficient matrix is empty or has a row of
    another width than the vocabulary makes [predict] raise [ValueError] on
    every text, before any cue is looked at. *)
Theorem malformed_artifact_value_error (m : Model) (doc : string) :
  Vectorizer.set_idf (vocabulary (tfidf m)) (idf_weights (tfidf m)) <> Ok tt
  \/ coefficients (classifier m) = []
  \/ ~ Forall (fun row => List.length row = size (vocabulary (tfidf m)))
         (coefficients (classifier m)) ->
  Complexity.classify m doc = Err ValueError.
Proof.
  intros Hbad. classify_stages. unfold run. rewrite raw_scores_eq. simpl fst.
  destruct (Vectorizer.set_idf (vocabulary (tfidf m)) (idf_weights (tfidf m)))
    as [[]|e] eqn:Hvec.
  - rewrite transform_ok by exact Hvec. cbn [res_bind].
    destruct Hbad as [Hbad|[Hnil|Hrows]]; [congruence| |].
    + rewrite Hnil. reflexivity.
    + unfold Np.dot. destruct (coefficients (classifier m)) as [|row rows] eqn:Hc.
      { reflexivity. }
      destruct (forallb _ (row :: rows)) eqn:Hall; [|reflexivity].
      exfalso. apply Hrows. apply Forall_forall. intros r Hr.
      rewrite forallb_forall in Hall. apply list_elem_of_In in Hr.
      specialize (Hall r Hr). apply Nat.eqb_eq in Hall. rewrite Hall.
      rewrite length_l2_normalize. apply raw_tfidf_length.
      now apply set_idf_ok in Hvec.
  - unfold Vectorizer.transform. rewrite Hvec.
    assert (Vectorizer.set_idf (vocabulary (tfidf m)) (idf_weights (tfidf m))
            = Err ValueError) as He.
    { apply set_idf_error. rewrite Hvec. discriminate. }
    rewrite Hvec in He. injection He as ->. reflexivity.
Qed.

Lemma malformed_artifact_value_error_witness :
  Complexity.classify MoreFixtures.short_idf "deploy docker" = Err ValueError.
Proof.
  apply (malformed_artifact_value_error MoreFixtures.short_idf "deploy docker").
  left. vm_compute. discriminate.
Defined.

(** X11: [predict] does not see the case of ASCII letters: two messages with
    the same lowercase form get the same result (or the same exception), and
    so does a message and its lowercase form. *)
Theorem classify_ignores_case (m : Model) (a b : string) :
  Text.lower a = Text.lower b ->
  Complexity.classify m a = Complexity.classify m b
  /\ Complexity.classify m (Text.lower a) = Complexity.classify m a.
Proof.
  assert (forall a b, Text.lower a = Text.lower b ->
            Complexity.classify m a = Complexity.classify m b) as Hcase.
  { clear a b. intros a b Hab. unfold Complexity.classify.
    rewrite !predict_eq. simpl fst. unfold run. rewrite !adjusted_scores_eq.
    simpl fst. unfold run. rewrite !raw_scores_eq. simpl fst.
    unfold Vectorizer.transform, Tokenizer.tokenize, Complexity.overlay,
      Complexity.padded.
    now rewrite Hab. }
  intros Hab. split; [now apply Hcase|]. apply Hcase, lower_idempotent.
Qed.

Lemma classify_ignores_case_witness :
  Complexity.classify Fixtures.deploy_docker "Deploy DOCKER"
  = Complexity.classify Fixtures.deploy_docker "deploy docker"
  /\ Complexity.classify Fixtures.deploy_docker (Text.lower "Deploy DOCKER")
     = Complexity.classify Fixtures.deploy_docker "Deploy DOCKER".
Proof.
  apply (classify_ignores_case Fixtures.deploy_docker "Deploy DOCKER" "deploy docker").
  reflexivity.
Defined.

End Failures.

(** ** Batch prediction of [eval.py] *)

Section Batch.

#[local] Open Scope R_scope.
#[local] Open Scope list_scope.

Lemma res_bind_ok_ext {A B : Type} (r : Res A) (k k' : A -> Res B) (z : B) :
  (forall a, k a = Ok z <-> k' a = Ok z) ->
  res_bind r k = Ok z <-> res_bind r k' = Ok z.
Proof. intros Hk. destruct r as [a|e]; simpl; [apply Hk|tauto]. Qed.

Lemma for_each_bind {A B C : Type} (f : A -> Res B) (g : B -> Res C) (l : list A) :
  forall zs,
    res_bind (Builtins.for_each f l) (Builtins.for_each g) = Ok zs
    <-> Builtins.for_each (fun x => res_bind (f x) g) l = Ok zs.
Proof.
  induction l as [|x l IH]; intros zs; simpl; [tauto|].
  destruct (f x) as [y|e]; simpl; [|tauto].
  destruct (Builtins.for_each f l) as [ys|e]; simpl in *.
  - destruct (g y) as [z|e]; simpl; [|tauto].
    destruct (Builtins.for_each g ys) as [zs1|e1],
      (Builtins.for_each (fun x => res_bind (f x) g) l) as [zs2|e2]; simpl.
    + assert (zs1 = zs2) as ->; [|tauto].
      pose proof (proj1 (IH zs1) eq_refl) as H. congruence.
    + pose proof (proj1 (IH zs1) eq_refl) as H. discriminate.
    + pose proof (proj2 (IH zs2) eq_refl) as H. discriminate.
    + split; discriminate.
  - split; [discriminate|]. destruct (g y) as [z|]; simpl; [|discriminate].
    destruct (Builtins.for_each (fun x => res_bind (f x) g) l) as [zs2|];
      simpl; [|discriminate].
    pose proof (proj2 (IH zs2) eq_refl) as H. discriminate.
Qed.

Lemma for_each_map {A B C : Type} (f : B -> Res C) (g : A -> B) (l : list A) :
  Builtins.for_each f (map g l) = Builtins.for_each (fun x => f (g x)) l.
Proof. induction l as [|x l IH]; simpl; [reflexivity|now rewrite IH]. Qed.

Lemma for_each_Forall2 {A B : Type} (f : A -> Res B) (l : list A) (ys : list B) :
  Builtins.for_each f l = Ok ys <-> Forall2 (fun x y => f x = Ok y) l ys.
Proof.
  revert ys. induction l as [|x l IH]; intros ys; simpl.
  - split; [intros [= <-]; constructor|intros H; inversion H; reflexivity].
  - split.
    + destruct (f x) as [y|] eqn:Hy; [simpl|discriminate].
      destruct (Builtins.for_each f l) as [ys'|] eqn:Hl; [simpl|discriminate].
      intros [= <-]. constructor; [exact Hy|]. now apply IH.
    + intros H. inversion H as [|? y ? ys' Hy Hl]; subst.
      rewrite Hy. simpl. apply IH in Hl. now rewrite Hl.
Qed.

Lemma predict_batch_eq (texts : list string) (m : Model) :
  EvalBatch.predict_batch texts m
  = (res_bind (EvalBatch.transform (vocabulary (tfidf m)) (idf_weights (tfidf m)) texts)
       (fun X =>
        res_bind (EvalBatch.logits_of (coefficients (classifier m))
                    (intercepts (classifier m)) X) (fun logits =>
        res_bind (Builtins.for_each Eval.softmax logits) (fun probs =>
        res_bind (Builtins.for_each Np.argmax probs) (fun idx =>
        Builtins.for_each (subscript (classes (classifier m))) idx)))), m).
Proof.
  unfold EvalBatch.predict_batch, mbind, py_bind, bind, read, lift. simpl.
  destruct (EvalBatch.transform _ _ texts) as [X|]; [simpl|reflexivity].
  destruct (EvalBatch.logits_of _ _ X) as [logits|]; [simpl|reflexivity].
  destruct (Builtins.for_each Eval.softmax logits) as [probs|]; [simpl|reflexivity].
  destruct (Builtins.for_each Np.argmax probs) as [idx|]; [simpl|reflexivity].
  destruct (Builtins.for_each _ idx); reflexivity.
Qed.

(** The prediction of one row: the class at the arg-max of its raw logits. *)
Lemma row_prediction (m : Model) (doc p : string) :
  Vectorizer.set_idf (vocabulary (tfidf m)) (idf_weights (tfidf m)) = Ok tt ->
  res_bind
    (res_bind
       (Np.dot (coefficients (classifier m))
          (Vectorizer.l2_normalize
             (Vectorizer.raw_tfidf (vocabulary (tfidf m)) (idf_weights (tfidf m))
                (Tokenizer.tokenize doc))))
       (fun d => Np.add d (intercepts (classifier m))))
    (fun l =>
     res_bind (Eval.softmax l) (fun q =>
     res_bind (Np.argmax q) (subscript (classes (classifier m))))) = Ok p
  <-> exists l i,
        run (Complexity.raw_scores doc) m = Ok l
        /\ Np.argmax l = Ok i
        /\ classes (classifier m) !! i = Some p.
Proof.
  intros Hvec. unfold run. rewrite raw_scores_eq. simpl fst.
  rewrite transform_ok by exact Hvec. cbn [res_bind].
  destruct (res_bind (Np.dot _ _) _) as [l|e]; cbn [res_bind].
  - change (Eval.softmax l) with (Complexity.softmax l).
    destruct (Complexity.softmax l) as [q|e] eqn:Hq; cbn [res_bind].
    + rewrite (argmax_softmax _ _ Hq).
      destruct (Np.argmax l) as [i|e] eqn:Hi; cbn [res_bind].
      * unfold subscript. split.
        -- destruct (classes (classifier m) !! i) as [c|] eqn:Hc; [|discriminate].
           intros [= <-]. eauto.
        -- intros (l' & i' & Hl & Hi' & Hc).
           injection Hl as <-. rewrite Hi in Hi'. injection Hi' as <-.
           now rewrite Hc.
      * split; [discriminate|]. intros (l' & i' & Hl & Hi' & _).
        injection Hl as <-. rewrite Hi in Hi'. discriminate.
    + split; [discriminate|]. intros (l' & i' & Hl & Hi' & _).
      injection Hl as <-. destruct l; discriminate.
  - split; [discriminate|]. intros (l' & i' & Hl & _). discriminate.
Qed.

(** What [predict_batch] returns. *)
Lemma predict_batch_spec (m : Model) (texts preds : list string) :
  run (EvalBatch.predict_batch texts) m = Ok preds
  <-> texts <> []
      /\ Forall2 (fun doc p =>
                    exists l i,
                      run (Complexity.raw_scores doc) m = Ok l
                      /\ Np.argmax l = Ok i
                      /\ classes (classifier m) !! i = Some p) texts preds.
Proof.
  unfold run. rewrite predict_batch_eq. simpl fst. unfold EvalBatch.transform.
  destruct (Vectorizer.set_idf (vocabulary (tfidf m)) (idf_weights (tfidf m)))
    as [[]|e] eqn:Hvec; cbn [res_bind].
  - destruct texts as [|doc texts]; cbn [res_bind].
    { split; [discriminate|]. intros [H _]. congruence. }
    set (texts' := doc :: texts). unfold EvalBatch.logits_of.
    rewrite for_each_map.
    rewrite (res_bind_ok_ext _ _
               (Builtins.for_each
                  (fun l => res_bind (Eval.softmax l) (fun q =>
                            res_bind (Np.argmax q)
                              (subscript (classes (classifier m))))))).
    2:{ intros logits.
        rewrite (res_bind_ok_ext _ _
                   (Builtins.for_each
                      (fun q => res_bind (Np.argmax q)
                                  (subscript (classes (classifier m)))))).
        - apply for_each_bind.
        - intros probs. apply for_each_bind. }
    rewrite for_each_bind, for_each_Forall2.
    split.
    + intros HF. split; [discriminate|].
      eapply Forall2_impl; [exact HF|]. intros t p Hp.
      now apply (row_prediction m t p Hvec).
    + intros [_ HF]. eapply Forall2_impl; [exact HF|]. intros t p Hp.
      now apply (row_prediction m t p Hvec).
  - split; [discriminate|]. intros [Hne HF].
    destruct HF as [|doc p texts preds (l & i & Hl & _) _]; [congruence|].
    unfold run in Hl. rewrite raw_scores_eq in Hl. simpl in Hl.
    unfold Vectorizer.transform in Hl. rewrite Hvec in Hl. discriminate.
Qed.

End Batch.

Section BatchClaims.

#[local] Open Scope R_scope.
#[local] Open Scope list_scope.

Lemma classify_ok_in_range (m : Model) (doc : string) :
  well_formed m ->
  overlay_in_range (classes (classifier m)) ->
  exists r, Complexity.classify m doc = Ok r.
Proof.
  intros Hwf [Hc Hm]. destruct (raw_scores_length m doc Hwf) as (scores & Hs & Hsl).
  destruct (overlay_spec (classes (classifier m)) doc scores) as (adj & Hov & Hl & _);
    [lia|lia|].
  destruct (decision_ok (classes (classifier m)) adj) as [r Hr].
  - intros ->. simpl in Hl. destruct Hwf as [_ _ _ _ Hcls].
    destruct (classes (classifier m)); [congruence|simpl in *; lia].
  - lia.
  - exists r. classify_stages. rewrite Hs. cbn [res_bind]. rewrite Hov. exact Hr.
Qed.

Lemma hello_batch :
  run (EvalBatch.predict_batch ["hello world"%string]) Fixtures.deploy_docker
  = Ok ["simple"%string].
Proof.
  apply predict_batch_spec. split; [discriminate|].
  constructor; [|constructor].
  exists [0; 0; 0], 0%nat. split; [|split].
  - apply (raw_scores_no_token Fixtures.deploy_docker "hello world" deploy_docker_wf).
    apply Forall_forall.
    change (Tokenizer.tokenize "hello world") with ["hello"%string; "world"%string].
    repeat constructor.
  - simpl. destruct (Rlt_dec 0 0) as [H|_]; [lra|]. reflexivity.
  - reflexivity.
Qed.

(** X12: [predict_batch] refuses an empty list of texts with [ValueError],
    whatever the artifact. *)
Theorem empty_batch_value_error (m : Model) :
  run (EvalBatch.predict_batch []) m = Err ValueError.
Proof.
  unfold run. rewrite predict_batch_eq. simpl fst. unfold EvalBatch.transform.
  destruct (Vectorizer.set_idf (vocabulary (tfidf m)) (idf_weights (tfidf m)))
    as [[]|e] eqn:Hvec; [reflexivity|].
  assert (Vectorizer.set_idf (vocabulary (tfidf m)) (idf_weights (tfidf m))
          = Err ValueError) as He.
  { apply set_idf_error. rewrite Hvec. discriminate. }
  rewrite Hvec in He. injection He as ->. reflexivity.
Qed.



(** X14: on a text that matches no cue, [eval.py] and [predict.py] agree:
    whenever [predict] returns a result, [predict_batch] on that text returns
    its label. (With a cue the two scripts score different logits.) *)
Theorem eval_agrees_without_cue (m : Model) (doc : string)
  (r : Complexity.Prediction) :
  Complexity.any_cue Complexity.multistep_cues (Complexity.padded doc) = false ->
  Complexity.any_cue Complexity.complex_cues (Complexity.padded doc) = false ->
  Complexity.classify m doc = Ok r ->
  run (EvalBatch.predict_batch [doc]) m = Ok [Complexity.label r].
Proof.
  intros Hm Hc Hr. destruct (classify_inv _ _ _ Hr) as (adj & Hadj & Hdec).
  unfold run in Hadj. rewrite adjusted_scores_eq in Hadj. simpl fst in Hadj.
  destruct (run (Complexity.raw_scores doc) m) as [scores|] eqn:Hs; [|discriminate].
  cbn [res_bind] in Hadj. unfold Complexity.overlay in Hadj.
  rewrite Hm, Hc in Hadj. simpl in Hadj. injection Hadj as <-.
  destruct (decision_inv _ _ _ Hdec) as (probs & i & Hp & Hi & Hl & _).
  rewrite (argmax_softmax _ _ Hp) in Hi.
  apply predict_batch_spec. split; [discriminate|].
  constructor; [|constructor]. eauto.
Qed.

Lemma eval_agrees_without_cue_witness :
  exists r,
    Complexity.classify Fixtures.deploy_docker "hello world" = Ok r
    /\ run (EvalBatch.predict_batch ["hello world"%string]) Fixtures.deploy_docker
       = Ok [Complexity.label r].
Proof.
  destruct (classify_ok_in_range Fixtures.deploy_docker "hello world"
              deploy_docker_wf three_classes_in_range) as [r Hr].
  exists r. split; [exact Hr|].
  apply (eval_agrees_without_cue Fixtures.deploy_docker "hello world" r).
  - reflexivity.
  - reflexivity.
  - exact Hr.
Defined.

Lemma labels_round_trip (i : Z) (c : string) :
  EvalBatch.LABELS !! i = Some c <-> EvalBatch.label_map !! c = Some i.
Proof.
  unfold EvalBatch.LABELS, EvalBatch.label_map. split; intros H.
  - repeat (apply lookup_insert_Some in H as [[<- <-]|[_ H]]; [reflexivity|]).
    rewrite lookup_empty in H. discriminate.
  - repeat (apply lookup_insert_Some in H as [[<- <-]|[_ H]]; [reflexivity|]).
    rewrite lookup_empty in H. discriminate.
Qed.

(** X15: [label_map] of [eval.py] inverts [LABELS] of [train.py]; so for an
    artifact whose classes all come from [LABELS], as [export_model] writes
    them, the conversion of the predictions in [main] never meets a missing
    key, and each code it yields is the [LABELS] key of the predicted
    class. *)
Theorem trained_labels_decodable (m : Model) (texts preds : list string) :
  (forall c, c ∈ classes (classifier m) -> exists i, EvalBatch.LABELS !! i = Some c) ->
  run (EvalBatch.predict_batch texts) m = Ok preds ->
  (forall i c, EvalBatch.LABELS !! i = Some c <-> EvalBatch.label_map !! c = Some i)
  /\ exists ys,
       EvalBatch.encode_predictions preds = Some ys
       /\ Forall2 (fun y p => EvalBatch.LABELS !! y = Some p) ys preds.
Proof.
  intros Hcls Hb. split; [exact labels_round_trip|].
  apply predict_batch_spec in Hb as [_ HF].
  assert (Forall (fun p => p ∈ classes (classifier m)) preds) as Hin.
  { apply Forall_forall. intros p Hp. apply list_elem_of_lookup in Hp as [k Hk].
    destruct (Forall2_lookup_r _ _ _ _ _ HF Hk) as (doc & _ & l & j & _ & _ & Hc).
    apply list_elem_of_lookup. eauto. }
  clear HF. unfold EvalBatch.encode_predictions.
  induction Hin as [|p preds Hp _ IH].
  - exists []. split; [reflexivity|constructor].
  - destruct IH as (ys & Hys & HF). destruct (Hcls p Hp) as [i Hi].
    exists (i :: ys). split; [|constructor; assumption].
    apply mapM_Some. constructor; [now apply labels_round_trip|].
    now apply mapM_Some.
Qed.

Lemma trained_labels_decodable_witness :
  (forall i c, EvalBatch.LABELS !! i = Some c <-> EvalBatch.label_map !! c = Some i)
  /\ exists ys,
       EvalBatch.encode_predictions ["simple"%string] = Some ys
       /\ Forall2 (fun y p => EvalBatch.LABELS !! y = Some p) ys ["simple"%string].
Proof.
  apply (trained_labels_decodable Fixtures.deploy_docker
           ["hello world"%string] ["simple"%string]).
  - intros c Hc. simpl in Hc.
    apply elem_of_cons in Hc as [->|Hc]; [exists 0%Z; reflexivity|].
    apply elem_of_cons in Hc as [->|Hc]; [exists 1%Z; reflexivity|].
    apply list_elem_of_singleton in Hc as ->. exists 2%Z. reflexivity.
  - exact hello_batch.
Defined.

End BatchClaims.

(** ** The recommender: model features and errors *)

Section RecommenderMore.

#[local] Open Scope R_scope.
#[local] Open Scope list_scope.

Lemma prefix_app_l (t u s : string) :
  String.prefix (t ++ u) s = true -> String.prefix t s = true.
Proof.
  revert t. induction s as [|d s IH]; intros [|c t]; simpl;
    try reflexivity; try discriminate.
  destruct (ascii_dec c d); [apply IH|discriminate].
Qed.

(** A text that contains [t ++ u] contains [t]. *)
Lemma contains_app_l (s t u : string) :
  Text.contains s (t ++ u) = true -> Text.contains s t = true.
Proof.
  induction s as [|c s IH]; cbn [Text.contains].
  - rewrite !orb_false_r. apply prefix_app_l.
  - intros H. apply orb_true_iff in H as [H|H]; apply orb_true_iff.
    + left. exact (prefix_app_l _ _ _ H).
    + right. now apply IH.
Qed.

Lemma find_none_all {A : Type} (f : A -> bool) (l : list A) :
  find f l = None <-> forall x, In x l -> f x = false.
Proof.
  split; [apply find_none|].
  induction l as [|x l IH]; intros H; simpl; [reflexivity|].
  rewrite (H x (or_introl eq_refl)). apply IH. intros y Hy. apply H. now right.
Qed.

Lemma flag_range (b : bool) : (Recommender.flag b = 0 \/ Recommender.flag b = 1)%Z.
Proof. destruct b; simpl; auto. Qed.

Lemma flag_one (b : bool) : Recommender.flag b = 1%Z <-> b = true.
Proof. destruct b; simpl; split; congruence. Qed.

(** X16: [extract_model_features] never raises. Its two tags are 0 or 1,
    the size is 0 or one of the nine listed sizes, and it is 0 exactly when no
    listed size occurs in the lowercased identifier. The test for 'coder' is
    redundant: the coder tag is 1 exactly when 'code' occurs. *)
Theorem model_features_range (model_id : string) :
  exists hc hi sz : Z,
    Recommender.extract_model_features model_id = Ok (hc, hi, sz)
    /\ (hc = 0 \/ hc = 1)%Z
    /\ (hi = 0 \/ hi = 1)%Z
    /\ In sz [0; 405; 120; 70; 32; 33; 22; 9; 8; 3]%Z
    /\ (sz = 0%Z <-> forall s, In s Recommender.sizes ->
                               Text.contains (Text.lower model_id) s = false)
    /\ (hc = 1%Z <-> Text.contains (Text.lower model_id) "code" = true)
    /\ (hi = 1%Z <-> Text.contains (Text.lower model_id) "instant" = true
                     \/ Text.contains (Text.lower model_id) "flash" = true).
Proof.
  unfold Recommender.extract_model_features.
  set (ml := Text.lower model_id).
  set (hc := Recommender.flag (Text.contains ml "coder" || Text.contains ml "code")).
  set (hi := Recommender.flag (Text.contains ml "instant" || Text.contains ml "flash")).
  assert ((hc = 0 \/ hc = 1)%Z) as Hhc by apply flag_range.
  assert ((hi = 0 \/ hi = 1)%Z) as Hhi by apply flag_range.
  assert (hc = 1%Z <-> Text.contains ml "code" = true) as Hcode.
  { unfold hc. rewrite flag_one, orb_true_iff.
    pose proof (contains_app_l ml "code" "r") as Hr. tauto. }
  assert (hi = 1%Z <-> Text.contains ml "instant" = true
                       \/ Text.contains ml "flash" = true) as Hinst.
  { unfold hi. rewrite flag_one. apply orb_true_iff. }
  destruct (find (Text.contains ml) Recommender.sizes) as [size|] eqn:Hfind.
  - apply find_some in Hfind as [Hin Hsize].
    assert (exists sz, Text.parse_int (Text.remove_char "b" size) = Some sz
                       /\ sz <> 0%Z
                       /\ In sz [0; 405; 120; 70; 32; 33; 22; 9; 8; 3]%Z)
      as (sz & Hsz & Hnz & Hrange).
    { simpl in Hin.
      repeat (destruct Hin as [<-|Hin];
              [eexists; split; [reflexivity|split; [discriminate|simpl; tauto]]|]).
      destruct Hin. }
    rewrite Hsz. exists hc, hi, sz. repeat (split; [assumption || reflexivity|]).
    split; [|split; assumption]. split; [contradiction|].
    intros Hnone. rewrite (Hnone size Hin) in Hsize. discriminate.
  - exists hc, hi, 0%Z. repeat (split; [assumption || reflexivity|]).
    split; [simpl; tauto|]. split; [|split; assumption].
    split; [|reflexivity]. intros _. now apply find_none_all.
Qed.

Lemma recommender_predict_eq (md : Recommender.ModelData)
  (model_id a l c : string) (cw : Z) (cost : R) :
  Recommender.classify_features md model_id a l c cw cost
  = res_bind (Recommender.extract_model_features model_id) (fun '(hc, hi, sz) =>
    res_bind (subscript (Recommender.coefficients md) 0) (fun coef =>
    res_bind (subscript (Recommender.intercept md) 0) (fun ic =>
    res_bind (Recommender.dot1
                [IZR (Recommender.encode (Recommender.action (Recommender.encoders md)) a);
                 IZR (Recommender.encode (Recommender.language (Recommender.encoders md)) l);
                 IZR (Recommender.encode (Recommender.complexity (Recommender.encoders md)) c);
                 Recommender.log1p cost; Recommender.log1p (IZR cw);
                 IZR hc; IZR hi; IZR sz] coef) (fun d =>
    Ok (Recommender.sigmoid (d + ic)))))).
Proof.
  unfold Recommender.classify_features, Recommender.predict.
  unfold mbind, py_bind, bind, read, lift, mret, py_ret, ret. simpl.
  destruct (Recommender.extract_model_features model_id) as [[[hc hi] sz]|];
    [simpl|reflexivity].
  destruct (subscript (Recommender.coefficients md) 0) as [coef|]; [simpl|reflexivity].
  destruct (subscript (Recommender.intercept md) 0) as [ic|]; [simpl|reflexivity].
  destruct (Recommender.dot1 _ coef); reflexivity.
Qed.




(** X18: a value missing from its encoder cannot be told from the value the
    encoder numbers 0: in each of the three categorical slots, replacing an
    unknown value by the value encoded 0 gives the same result. *)
Theorem unknown_value_aliases_code_zero (md : Recommender.ModelData)
  (model_id : string) (cw : Z) (cost : R) :
  (forall a a0 l c,
     Recommender.action (Recommender.encoders md) !! a = None ->
     Recommender.action (Recommender.encoders md) !! a0 = Some 0%Z ->
     Recommender.classify_features md model_id a l c cw cost
     = Recommender.classify_features md model_id a0 l c cw cost)
  /\ (forall a l l0 c,
        Recommender.language (Recommender.encoders md) !! l = None ->
        Recommender.language (Recommender.encoders md) !! l0 = Some 0%Z ->
        Recommender.classify_features md model_id a l c cw cost
        = Recommender.classify_features md model_id a l0 c cw cost)
  /\ (forall a l c c0,
        Recommender.complexity (Recommender.encoders md) !! c = None ->
        Recommender.complexity (Recommender.encoders md) !! c0 = Some 0%Z ->
        Recommender.classify_features md model_id a l c cw cost
        = Recommender.classify_features md model_id a l c0 cw cost).
Proof.
  repeat split; intros; rewrite !recommender_predict_eq;
    unfold Recommender.encode;
    repeat match goal with H : _ !! _ = _ |- _ => rewrite H; clear H end;
    reflexivity.
Qed.

Lemma unknown_value_aliases_code_zero_witness :
  Recommender.classify_features Fixtures.recommender "qwen-2.5-coder-32b"
    "edit" "rust" "complex" 32000 0.14
  = Recommender.classify_features Fixtures.recommender "qwen-2.5-coder-32b"
      "edit" "go" "complex" 32000 0.14.
Proof.
  destruct (unknown_value_aliases_code_zero Fixtures.recommender
              "qwen-2.5-coder-32b" 32000 0.14) as (_ & Hlang & _).
  apply (Hlang "edit" "rust" "go" "complex")%string; reflexivity.
Defined.

End RecommenderMore.

(** ** The recommender's entry point *)

Section RecommenderMain.

#[local] Open Scope R_scope.
#[local] Open Scope list_scope.



(** X20: the guard of [main] and its use of the arguments are off by one:
    with exactly five arguments after the script name [main] neither shows the
    usage nor predicts, but raises, [ValueError] when the fifth argument is no
    integer and [IndexError] for the missing sixth one otherwise; the
    standard input is not read. *)
Theorem five_arguments_raise (int_of_string : string -> option Z)
  (float_of_string : string -> option R) (model_data : Recommender.ModelData)
  (argv stdin : list string) (cw : string) :
  List.length argv = 6%nat ->
  argv !! 5%nat = Some cw ->
  RecommenderCli.main int_of_string float_of_string
    (RecommenderCli.Parsed model_data) argv stdin
  = match int_of_string cw with
    | Some _ => RecommenderCli.Raised IndexError
    | None => RecommenderCli.Raised ValueError
    end.
Proof.
  intros Hlen Hcw.
  destruct argv as [|a0 [|a1 [|a2 [|a3 [|a4 [|a5 [|a6 argv]]]]]]]; try discriminate.
  simpl in Hcw. injection Hcw as ->. simpl.
  destruct (int_of_string cw); reflexivity.
Qed.

Lemma five_arguments_raise_witness :
  RecommenderCli.main (fun _ => Some 32000%Z) (fun _ => Some 0.14)
    (RecommenderCli.Parsed Fixtures.recommender)
    ["predict.py"; "qwen-2.5-coder-32b"; "edit"; "go"; "complex"; "32000"]%string []
  = RecommenderCli.Raised IndexError.
Proof.
  apply (five_arguments_raise (fun _ => Some 32000%Z) (fun _ => Some 0.14)
           Fixtures.recommender
           ["predict.py"; "qwen-2.5-coder-32b"; "edit"; "go"; "complex"; "32000"]%string
           [] "32000"%string); reflexivity.
Defined.

End RecommenderMain.

(** ** The entry points of [predict.py] *)

Section ComplexityMain.

#[local] Open Scope R_scope.
#[local] Open Scope list_scope.

Lemma predict_pair (doc : string) (m : Model) :
  Complexity.predict doc m = (Complexity.classify m doc, m).
Proof. unfold Complexity.classify. rewrite predict_eq. reflexivity. Qed.

Lemma quit_word_not_blank (s : string) :
  Text.lower s ∈ ComplexityCli.quit_words -> s <> EmptyString.
Proof.
  intros Hq ->. simpl in Hq. unfold ComplexityCli.quit_words in Hq.
  repeat (apply elem_of_cons in Hq as [Hq|Hq]; [discriminate|]).
  inversion Hq.
Qed.

Lemma spin_at_eof (m : Model) (k : nat) :
  ComplexityCli.interactive_mode k m []
  = ComplexityCli.Running (replicate k ComplexityCli.EndOfFile).
Proof. induction k as [|k IH]; simpl; [reflexivity|now rewrite IH]. Qed.

(** X21: an interactive session that is stopped, by Ctrl-C or by a line
    whose stripped lowercase form is quit, exit or q, ends with the goodbye
    line after one block per non-blank line before the stop, in order: a blank
    line prints nothing, an exception of [predict] is printed and the loop
    goes on, and nothing after the stop is read. *)
Theorem interactive_session_transcript (m : Model) (lines : list string)
  (stop : ComplexityCli.Input) (rest : list ComplexityCli.Input) (fuel : nat) :
  Forall (fun s => Text.lower (Builtins.strip s) ∉ ComplexityCli.quit_words) lines ->
  (stop = ComplexityCli.Interrupt
   \/ exists q, stop = ComplexityCli.Line q
                /\ Text.lower (Builtins.strip q) ∈ ComplexityCli.quit_words) ->
  (List.length lines < fuel)%nat ->
  ComplexityCli.interactive_mode fuel m
    (map ComplexityCli.Line lines ++ stop :: rest)
  = ComplexityCli.Ended
      (flat_map
         (fun s =>
            if bool_decide (Builtins.strip s = EmptyString) then []
            else [match Complexity.classify m (Builtins.strip s) with
                  | Ok r => ComplexityCli.Shown r
                  | Err e => ComplexityCli.Failed e
                  end]) lines
       ++ [ComplexityCli.Goodbye]).
Proof.
  intros Hlines Hstop. revert fuel.
  induction Hlines as [|s lines Hs _ IH]; intros fuel Hfuel.
  - destruct fuel as [|fuel]; [simpl in Hfuel; lia|]. simpl.
    destruct Hstop as [->|(q & -> & Hq)]; [reflexivity|].
    rewrite bool_decide_eq_false_2 by now apply quit_word_not_blank.
    now rewrite bool_decide_eq_true_2 by exact Hq.
  - destruct fuel as [|fuel]; [simpl in Hfuel; lia|].
    simpl in Hfuel. specialize (IH fuel ltac:(lia)).
    cbn [map app flat_map ComplexityCli.interactive_mode].
    destruct (bool_decide (Builtins.strip s = EmptyString)); [exact IH|].
    rewrite bool_decide_eq_false_2 by exact Hs.
    rewrite predict_pair, IH.
    destruct (Complexity.classify m (Builtins.strip s)); reflexivity.
Qed.

Lemma interactive_session_transcript_witness :
  ComplexityCli.interactive_mode 5 Fixtures.two_classes
    (map ComplexityCli.Line ["  "; " first "]%string
     ++ ComplexityCli.Line " Quit " :: [ComplexityCli.Line "ignored"])
  = ComplexityCli.Ended
      (flat_map
         (fun s =>
            if bool_decide (Builtins.strip s = EmptyString) then []
            else [match Complexity.classify Fixtures.two_classes (Builtins.strip s) with
                  | Ok r => ComplexityCli.Shown r
                  | Err e => ComplexityCli.Failed e
                  end]) ["  "; " first "]%string
       ++ [ComplexityCli.Goodbye]).
Proof.
  apply (interactive_session_transcript Fixtures.two_classes ["  "; " first "]%string
           (ComplexityCli.Line " Quit ") [ComplexityCli.Line "ignored"] 5).
  - repeat constructor; apply (bool_decide_unpack (_ ∉ _)); vm_compute; exact I.
  - right. exists " Quit "%string. split; [reflexivity|].
    apply (bool_decide_unpack (_ ∈ _)). vm_compute. exact I.
  - simpl. lia.
Defined.

(** X22: without such a stop the loop never ends: the end of the input
    raises [EOFError] inside the [try], the handler for [Exception] prints it,
    and the loop asks again. Whatever the number of iterations granted, the
    session is still running; after the lines are used up every further
    iteration adds one end-of-file error line. *)
Theorem interactive_loops_at_end_of_input (m : Model) (lines : list string) :
  Forall (fun s => Text.lower (Builtins.strip s) ∉ ComplexityCli.quit_words) lines ->
  (forall fuel, exists out,
     ComplexityCli.interactive_mode fuel m (map ComplexityCli.Line lines)
     = ComplexityCli.Running out)
  /\ (forall k,
        ComplexityCli.interactive_mode (List.length lines + k) m
          (map ComplexityCli.Line lines)
        = ComplexityCli.Running
            (flat_map
               (fun s =>
                  if bool_decide (Builtins.strip s = EmptyString) then []
                  else [match Complexity.classify m (Builtins.strip s) with
                        | Ok r => ComplexityCli.Shown r
                        | Err e => ComplexityCli.Failed e
                        end]) lines
             ++ replicate k ComplexityCli.EndOfFile)).
Proof.
  intros Hlines. split.
  - intros fuel. revert lines Hlines.
    induction fuel as [|fuel IH]; intros lines Hlines; [eexists; reflexivity|].
    destruct Hlines as [|s lines Hs Hlines].
    + simpl. rewrite spin_at_eof. eexists. reflexivity.
    + cbn [map ComplexityCli.interactive_mode].
      destruct (IH lines Hlines) as [out Hout].
      destruct (bool_decide (Builtins.strip s = EmptyString)); [eauto|].
      rewrite bool_decide_eq_false_2 by exact Hs.
      rewrite predict_pair, Hout.
      destruct (Complexity.classify m (Builtins.strip s)); eexists; reflexivity.
  - intros k. induction Hlines as [|s lines Hs _ IH].
    + simpl. apply spin_at_eof.
    + cbn [map List.length Nat.add flat_map ComplexityCli.interactive_mode].
      destruct (bool_decide (Builtins.strip s = EmptyString)); [exact IH|].
      rewrite bool_decide_eq_false_2 by exact Hs.
      rewrite predict_pair, IH.
      destruct (Complexity.classify m (Builtins.strip s)); reflexivity.
Qed.

Lemma interactive_loops_at_end_of_input_witness :
  exists out,
    ComplexityCli.interactive_mode 100 Fixtures.two_classes
      (map ComplexityCli.Line [" first "; "quite"]%string)
    = ComplexityCli.Running out.
Proof.
  apply (proj1 (interactive_loops_at_end_of_input Fixtures.two_classes
                  [" first "; "quite"]%string
                  ltac:(repeat constructor;
                        apply (bool_decide_unpack (_ ∉ _)); vm_compute; exact I))).
Defined.

Lemma classify_without_cue (m : Model) (doc : string) :
  Complexity.any_cue Complexity.multistep_cues (Complexity.padded doc) = false ->
  Complexity.any_cue Complexity.complex_cues (Complexity.padded doc) = false ->
  Complexity.classify m doc
  = res_bind (run (Complexity.raw_scores doc) m)
      (Complexity.decision (classes (classifier m))).
Proof.
  intros Hm Hc. classify_stages.
  destruct (run (Complexity.raw_scores doc) m) as [scores|]; [|reflexivity].
  cbn [res_bind]. unfold Complexity.overlay. now rewrite Hm, Hc.
Qed.

(** X23: in single-shot mode the order of the command-line arguments does
    not matter as long as no cue is involved: the arguments are joined by
    spaces, no token spans two arguments, and the features are a bag of
    words, so two orderings whose joined messages match no cue get the same
    outcome from [main]. *)
Theorem main_ignores_argument_order (fuel : nat) (file : Complexity.ModelFile)
  (prog prog' : string) (args args' : list string)
  (stdin stdin' : list ComplexityCli.Input) :
  args ≡ₚ args' ->
  args <> [] ->
  Complexity.any_cue Complexity.multistep_cues
    (Complexity.padded (Builtins.join " " args)) = false ->
  Complexity.any_cue Complexity.complex_cues
    (Complexity.padded (Builtins.join " " args)) = false ->
  Complexity.any_cue Complexity.multistep_cues
    (Complexity.padded (Builtins.join " " args')) = false ->
  Complexity.any_cue Complexity.complex_cues
    (Complexity.padded (Builtins.join " " args')) = false ->
  ComplexityCli.main fuel file (prog :: args) stdin
  = ComplexityCli.main fuel file (prog' :: args') stdin'.
Proof.
  intros Hperm Hne Hm Hc Hm' Hc'. unfold ComplexityCli.main.
  destruct (Complexity.load_model file) as [model|]; [|reflexivity].
  cbn [res_bind tail List.length].
  assert (List.length args' = List.length args) as Hlen
    by (symmetry; apply Permutation_length, Hperm).
  rewrite Hlen.
  destruct args as [|a args0]; [congruence|]. cbn [List.length Nat.ltb Nat.leb].
  change (fst (Complexity.predict (Builtins.join " " (a :: args0)) model))
    with (Complexity.classify model (Builtins.join " " (a :: args0))).
  change (fst (Complexity.predict (Builtins.join " " args') model))
    with (Complexity.classify model (Builtins.join " " args')).
  rewrite !classify_without_cue by assumption.
  unfold run. rewrite !raw_scores_eq. simpl fst.
  rewrite (transform_bag _ _ (Builtins.join " " (a :: args0)) (Builtins.join " " args'));
    [reflexivity|].
  rewrite !tokenize_join, <- !flat_map_concat_map.
  apply filter_Permutation, Permutation_flat_map, Hperm.
Qed.

Lemma main_ignores_argument_order_witness :
  ComplexityCli.main 0 (Complexity.Parsed Fixtures.deploy_docker)
    ["predict.py"; "hello"; "world"]%string []
  = ComplexityCli.main 0 (Complexity.Parsed Fixtures.deploy_docker)
      ["predict.py"; "world"; "hello"]%string [].
Proof.
  apply (main_ignores_argument_order 0 (Complexity.Parsed Fixtures.deploy_docker)
           "predict.py" "predict.py" ["hello"; "world"]%string
           ["world"; "hello"]%string [] []).
  - apply perm_swap.
  - discriminate.
  - reflexivity.
  - reflexivity.
  - reflexivity.
  - reflexivity.
Defined.

End ComplexityMain.

(** ** What a token is, and the vocabulary entries no text can reach *)

Section Tokens.

#[local] Open Scope R_scope.
#[local] Open Scope list_scope.













End Tokens.
